(** * Dataset ingestion: parsers, chunking, batch loading, orchestration

    A shallow embedding of [scripts/ingest_datasets.py] and of the table
    declarations of [bias_mitigation/data/schemas/datasets.py].

    - JSON values are the Python objects that [json.loads] builds.
    - Python exceptions are values of [exn]; a function decorated with
      [@safe] returns a [Result], one decorated with [@future_safe] a future
      of a [Result], which is awaited as an [IOResult].
    - The session is a state threaded through the loaders; the log is the
      list of records handed to [logger].
    - The database is reached through the session only: a flush either
      writes all the pending rows or raises, by the constraints of the
      tables and by what the driver and the column types accept. *)

From Stdlib Require Import List String Ascii ZArith Bool Arith Lia.
From Stdlib Require Import SpecFloat DecimalString.
Import ListNotations.
Open Scope string_scope.
Open Scope list_scope.
Open Scope nat_scope.

Set Implicit Arguments.

(** ** Python values decoded from JSON *)

(** [json.loads] yields [None], [bool], [int], [float], [str], [list] and
    [dict] with string keys.  A [dict] keeps its insertion order; it is an
    association list that is read through its first binding of a key. *)
#[local] Unset Elimination Schemes.
Inductive json : Type :=
| JNull
| JBool (b : bool)
| JInt (z : Z)
| JFloat (f : spec_float)
| JStr (s : string)
| JArr (items : list json)
| JObj (fields : list (string * json)).
#[local] Set Elimination Schemes.

(** ** Exceptions and the [returns] containers *)

Inductive exn : Type :=
| JSONDecodeError
| KeyError (key : string)
| IndexError
| TypeError
| AttributeError
| ValidationError (field : string)
| FileNotFoundError (path : string)
| IntegrityError (constraint : string) (value : json)
| InterfaceError
| OverflowError
| StatementError (orig : exn)
| InvalidRequestError.

Inductive Result (A : Type) : Type :=
| Success (a : A)
| Failure (e : exn).

Arguments Success {A} a.
Arguments Failure {A} e.

Definition bind {A B : Type} (r : Result A) (k : A -> Result B) : Result B :=
  match r with
  | Success a => k a
  | Failure e => Failure e
  end.

Notation "x <- r ;; k" := (bind r (fun x => k))
  (at level 61, r at next level, right associativity).

(** A [for] loop that builds a list and stops at the first exception. *)
Fixpoint for_each {A B : Type} (body : A -> Result B) (xs : list A)
  : Result (list B) :=
  match xs with
  | [] => Success []
  | x :: rest =>
      y <- body x ;;
      ys <- for_each body rest ;;
      Success (y :: ys)
  end.

Definition is_failure {A : Type} (r : Result A) : bool :=
  match r with
  | Success _ => false
  | Failure _ => true
  end.

(** ** Python operations on decoded values *)

Fixpoint dict_lookup (fields : list (string * json)) (key : string)
  : option json :=
  match fields with
  | [] => None
  | (k, v) :: rest => if String.eqb k key then Some v else dict_lookup rest key
  end.

(** [d[key] = v] on a dict: rebinding keeps the key's position, a new key
    goes last. *)
Fixpoint dict_set (fields : list (string * json)) (key : string) (v : json)
  : list (string * json) :=
  match fields with
  | [] => [(key, v)]
  | (k, w) :: rest =>
      if String.eqb k key then (k, v) :: rest
      else (k, w) :: dict_set rest key v
  end.

(** [o[key]] with a string key. *)
Definition getitem (o : json) (key : string) : Result json :=
  match o with
  | JObj fields =>
      match dict_lookup fields key with
      | Some v => Success v
      | None => Failure (KeyError key)
      end
  | _ => Failure TypeError
  end.

(** [o[key] = v] with a string key. *)
Definition setitem (o : json) (key : string) (v : json) : Result json :=
  match o with
  | JObj fields => Success (JObj (dict_set fields key v))
  | _ => Failure TypeError
  end.

Fixpoint string_chars (s : string) : list json :=
  match s with
  | EmptyString => []
  | String c rest => JStr (String c EmptyString) :: string_chars rest
  end.

(** [o[i]] with an integer index [i >= 0].  A dict built from JSON has
    string keys only, so an integer key is never found. *)
Definition getitem_int (o : json) (i : nat) : Result json :=
  match o with
  | JArr items =>
      match nth_error items i with
      | Some v => Success v
      | None => Failure IndexError
      end
  | JStr s =>
      match nth_error (string_chars s) i with
      | Some v => Success v
      | None => Failure IndexError
      end
  | JObj _ => Failure (KeyError "1")
  | _ => Failure TypeError
  end.

(** [o.get(key)] and [o.get(key, default)]: only a dict has the method. *)
Definition get_default (o : json) (key : string) (default : json)
  : Result json :=
  match o with
  | JObj fields =>
      match dict_lookup fields key with
      | Some v => Success v
      | None => Success default
      end
  | _ => Failure AttributeError
  end.

Definition get (o : json) (key : string) : Result json :=
  get_default o key JNull.

(** [for d in o]: a list yields its items, a dict its keys, a string its
    characters; nothing else is iterable. *)
Definition iterate (o : json) : Result (list json) :=
  match o with
  | JArr items => Success items
  | JObj fields => Success (map (fun kv => JStr (fst kv)) fields)
  | JStr s => Success (string_chars s)
  | _ => Failure TypeError
  end.

(** [**o] in a call: the argument must be a mapping. *)
Definition kwargs (o : json) : Result (list (string * json)) :=
  match o with
  | JObj fields => Success fields
  | _ => Failure TypeError
  end.

Definition float_is_zero (f : spec_float) : bool :=
  match f with
  | S754_zero _ => true
  | _ => false
  end.

(** Truth value of an object, as tested by [or] and [if]. *)
Definition truthy (o : json) : bool :=
  match o with
  | JNull => false
  | JBool b => b
  | JInt z => negb (Z.eqb z 0)
  | JFloat f => negb (float_is_zero f)
  | JStr s => negb (String.eqb s "")
  | JArr items => match items with [] => false | _ => true end
  | JObj fields => match fields with [] => false | _ => true end
  end.

(** [a or b] once both operands are evaluated: [b] is only looked at when
    [a] is falsy. *)
Definition py_or (a b : json) : json := if truthy a then a else b.

Definition is_dict (o : json) : bool :=
  match o with
  | JObj _ => true
  | _ => false
  end.

(** [str.capitalize()] on ASCII letters: first character upper case, the
    rest lower case; other characters are kept. *)
Definition upper (c : ascii) : ascii :=
  let n := nat_of_ascii c in
  if andb (97 <=? n)%nat (n <=? 122)%nat then ascii_of_nat (n - 32) else c.

Definition lower (c : ascii) : ascii :=
  let n := nat_of_ascii c in
  if andb (65 <=? n)%nat (n <=? 90)%nat then ascii_of_nat (n + 32) else c.

Fixpoint lower_all (s : string) : string :=
  match s with
  | EmptyString => EmptyString
  | String c rest => String (lower c) (lower_all rest)
  end.

Definition capitalize (s : string) : string :=
  match s with
  | EmptyString => EmptyString
  | String c rest => String (upper c) (lower_all rest)
  end.

(** ** Schemas ([datasets.py]) *)

(** [AdditionalMetadata] is a plain model (no table): its constructor
    validates the keyword arguments. *)
Module AdditionalMetadata.
Record t : Type := mk {
  subcategory : string;
  stereotyped_groups : list string;
  version : string;
  source : string
}.
End AdditionalMetadata.

(** The table models ([table=True]) are built without validation: a field
    holds whatever object it was given. *)
Module BBQAnswer.
Record t : Type := mk {
  index : nat;
  text : json;
  tag : json
}.
End BBQAnswer.

Module BBQ.
Record t : Type := mk {
  example_id : json;
  question_index : json;
  question_polarity : json;
  context_condition : json;
  category : json;
  additional_metadata : AdditionalMetadata.t;
  context : json;
  question : json;
  ans0 : json;
  ans1 : json;
  ans2 : json;
  label : json;
  answers : list BBQAnswer.t
}.
End BBQ.

Module StereoSetLabel.
Record t : Type := mk {
  label : json;
  human_id : json
}.
End StereoSetLabel.

Module StereoSetSentence.
Record t : Type := mk {
  sentence : json;
  sentence_id : json;
  gold_label : json;
  labels : list StereoSetLabel.t
}.
End StereoSetSentence.

Module StereoSet.
Record t : Type := mk {
  id : json;
  target : json;
  bias_type : json;
  context : json;
  type : string;
  sentences : list StereoSetSentence.t
}.
End StereoSet.

(** Validation of one [str] field and of the [list[str]] field. *)
Definition str_field (fields : list (string * json)) (name : string)
  : Result string :=
  match dict_lookup fields name with
  | Some (JStr s) => Success s
  | _ => Failure (ValidationError name)
  end.

Definition str_item (name : string) (o : json) : Result string :=
  match o with
  | JStr s => Success s
  | _ => Failure (ValidationError name)
  end.

Definition str_list_field (fields : list (string * json)) (name : string)
  : Result (list string) :=
  match dict_lookup fields name with
  | Some (JArr items) => for_each (str_item name) items
  | _ => Failure (ValidationError name)
  end.

(** The constructor of [AdditionalMetadata] on the keyword arguments
    [fields]; keys that are no field are ignored. *)
Definition new_AdditionalMetadata (fields : list (string * json))
  : Result AdditionalMetadata.t :=
  sub <- str_field fields "subcategory" ;;
  groups <- str_list_field fields "stereotyped_groups" ;;
  ver <- str_field fields "version" ;;
  src <- str_field fields "source" ;;
  Success (AdditionalMetadata.mk sub groups ver src).

(** ** RecordParser, flat-category variant *)

(** A line of a [.jsonl] file, given by what [json.loads] makes of it:
    [None] for a text that is not valid JSON. *)
Definition line : Type := option json.

Definition json_loads (l : line) : Result json :=
  match l with
  | Some j => Success j
  | None => Failure JSONDecodeError
  end.

(** [f'ans{i}'] for the loop indices. *)
Definition ans_key (i : nat) : string :=
  match i with
  | 0 => "ans0"
  | 1 => "ans1"
  | 2 => "ans2"
  | _ => "ans"
  end.

(** Body of the inner loop of [parse_bbq_file]. *)
Definition build_answer (data : json) (i : nat) : Result BBQAnswer.t :=
  txt <- getitem data (ans_key i) ;;
  info <- getitem data "answer_info" ;;
  pair <- getitem info (ans_key i) ;;
  tg <- getitem_int pair 1 ;;
  Success (BBQAnswer.mk i txt tg).

(** Body of the outer loop of [parse_bbq_file]: one line to one entry. *)
Definition parse_bbq_line (cat : string) (l : line) : Result BBQ.t :=
  data0 <- json_loads l ;;
  data <- setitem data0 "category" (JStr cat) ;;
  answers <- for_each (build_answer data) (seq 0 3) ;;
  meta_raw <- getitem data "additional_metadata" ;;
  meta_kw <- kwargs meta_raw ;;
  add_meta <- new_AdditionalMetadata meta_kw ;;
  v_example_id <- getitem data "example_id" ;;
  v_question_index <- getitem data "question_index" ;;
  v_question_polarity <- getitem data "question_polarity" ;;
  v_context_condition <- getitem data "context_condition" ;;
  v_category <- getitem data "category" ;;
  v_context <- getitem data "context" ;;
  v_question <- getitem data "question" ;;
  v_ans0 <- getitem data "ans0" ;;
  v_ans1 <- getitem data "ans1" ;;
  v_ans2 <- getitem data "ans2" ;;
  v_label <- getitem data "label" ;;
  Success (BBQ.mk v_example_id v_question_index v_question_polarity
             v_context_condition v_category add_meta v_context v_question
             v_ans0 v_ans1 v_ans2 v_label answers).

(** [parse_bbq_file], given the lines of the opened file.  [@safe] turns
    the first exception into the [Failure] of the whole call. *)
Definition parse_bbq_file (lines : list line) (cat : string)
  : Result (list BBQ.t) :=
  for_each (parse_bbq_line cat) lines.

(** ** RecordParser, nested-document variant *)

(** The text of a [.json] file, given by what [json.load] makes of it. *)
Definition json_load (content : option json) : Result json :=
  match content with
  | Some j => Success j
  | None => Failure JSONDecodeError
  end.

(** [raw.get('data', raw) if isinstance(raw, dict) else raw] *)
Definition data_section (raw : json) : Result json :=
  if is_dict raw then get_default raw "data" raw else Success raw.

(** [raw_data.get(entry_type) or raw_data.get(entry_type.capitalize())
    or raw_data]; an operand is evaluated only when those before it are
    falsy. *)
Definition locate_documents (raw_data : json) (entry_type : string)
  : Result json :=
  lowercase <- get raw_data entry_type ;;
  if truthy lowercase then Success lowercase
  else
    capitalized <- get raw_data (capitalize entry_type) ;;
    Success (py_or capitalized raw_data).

Definition build_label (l : json) : Result StereoSetLabel.t :=
  v_label <- getitem l "label" ;;
  v_human_id <- getitem l "human_id" ;;
  Success (StereoSetLabel.mk v_label v_human_id).

Definition build_sentence (s : json) : Result StereoSetSentence.t :=
  labels_raw <- getitem s "labels" ;;
  labels_items <- iterate labels_raw ;;
  labels <- for_each build_label labels_items ;;
  v_sentence <- getitem s "sentence" ;;
  v_id <- getitem s "id" ;;
  v_gold_label <- getitem s "gold_label" ;;
  Success (StereoSetSentence.mk v_sentence v_id v_gold_label labels).

Definition build_document (entry_type : string) (d : json)
  : Result StereoSet.t :=
  sentences_raw <- getitem d "sentences" ;;
  sentences_items <- iterate sentences_raw ;;
  sentences <- for_each build_sentence sentences_items ;;
  v_id <- getitem d "id" ;;
  v_target <- getitem d "target" ;;
  v_bias_type <- getitem d "bias_type" ;;
  v_context <- getitem d "context" ;;
  Success (StereoSet.mk v_id v_target v_bias_type v_context entry_type
             sentences).

(** [parse_stereoset_file], given the content of the opened file. *)
Definition parse_stereoset_file (content : option json) (entry_type : string)
  : Result (list StereoSet.t) :=
  raw <- json_load content ;;
  raw_data0 <- data_section raw ;;
  raw_data <- locate_documents raw_data0 entry_type ;;
  documents <- iterate raw_data ;;
  for_each (build_document entry_type) documents.

(** ** Chunker *)

(** [range(start, stop, step)] for [step >= 1]; at most [stop - start]
    values are produced. *)
Fixpoint range_from (fuel start stop step : nat) : list nat :=
  match fuel with
  | 0 => []
  | S fuel' =>
      if start <? stop
      then start :: range_from fuel' (start + step) stop step
      else []
  end.

Definition range (start stop step : nat) : list nat :=
  range_from (stop - start) start stop step.

(** The slice [xs[i : j]]. *)
Definition slice {A : Type} (xs : list A) (i j : nat) : list A :=
  firstn (j - i) (skipn i xs).

(** [[entries[i : i + chunk_size]
      for i in range(0, len(entries), chunk_size)]] *)
Definition make_chunks {A : Type} (chunk_size : nat) (entries : list A)
  : list (list A) :=
  map (fun i => slice entries i (i + chunk_size))
      (range 0 (List.length entries) chunk_size).

Definition chunk_size : nat := 1000.

(** ** BatchLoader *)

(** What awaiting [FutureResult.awaitable()] returns:
    [IOResult.from_result] of the result the future holds. *)
Inductive IOResult (A : Type) : Type :=
| IOSuccess (a : A)
| IOFailure (e : exn).

Arguments IOSuccess {A} a.
Arguments IOFailure {A} e.

Definition awaitable {A : Type} (r : Result A) : IOResult A :=
  match r with
  | Success a => IOSuccess a
  | Failure e => IOFailure e
  end.

Section Loader.

(** The state reached through the session, and what flushing a list of
    pending objects does to it: the state after the flush, and the
    exception when a statement failed. *)
Variable Session : Type.
Variable E : Type.
Variable flush : Session -> list E -> Session * option exn.

(** [insert_chunk]: [begin_nested] sets a savepoint, leaving the block
    flushes the added objects; an exception rolls back to the savepoint
    and [@future_safe] returns it as a [Failure]; otherwise the
    savepoint is released and the session committed. *)
Definition insert_chunk (session : Session) (chunk : list E)
  : Session * Result unit :=
  let savepoint := session in
  match flush session chunk with
  | (session', None) => (session', Success tt)
  | (_, Some e) => (savepoint, Failure e)
  end.

(** The chunk loads of one source are handed together to
    [asyncio.gather], as tasks on the one session.  An [AsyncSession]
    serves one task at a time: the task of the first chunk is inside the
    session when the tasks of the other chunks start, the session refuses
    each of them with [InvalidRequestError], and they write nothing. *)
Definition gather_inserts (session : Session) (chunks : list (list E))
  : Session * list (IOResult unit) :=
  match chunks with
  | [] => (session, [])
  | first :: others =>
      let (session', r) := insert_chunk session first in
      (session',
       awaitable r :: map (fun _ => IOFailure InvalidRequestError) others)
  end.

End Loader.

(** ** Orchestrator *)

Inductive level : Type := WARNING | ERROR | INFO.

(** The messages of the loaders; [logger.exception] logs at [ERROR]. *)
Inductive message : Type :=
| Skipping_missing_file (file_path : string)
| Failed_parsing (family source : string) (e : exn)
| Insert_failure (family source : string) (e : exn)
| Loaded (n : nat) (family source : string).

Definition log_record : Type := (level * message)%type.

(** The classes of the containers of [returns] that the loaders hold:
    those of a [Result] and those of an [IOResult]. *)
Inductive container_class : Type :=
| Success_class
| Failure_class
| IOSuccess_class
| IOFailure_class.

Definition class_of_Result {A : Type} (r : Result A) : container_class :=
  match r with
  | Success _ => Success_class
  | Failure _ => Failure_class
  end.

Definition class_of_IOResult {A : Type} (r : IOResult A) : container_class :=
  match r with
  | IOSuccess _ => IOSuccess_class
  | IOFailure _ => IOFailure_class
  end.

(** Whether a class is [returns.result.Failure] or derives from it.  The
    classes of [IOResult] are built around a [Result]; they do not derive
    from its classes. *)
Definition derives_from_Failure (c : container_class) : bool :=
  match c with
  | Failure_class => true
  | _ => false
  end.

(** [[r for r in results if isinstance(r, Failure)]] over the awaited
    values, each with its [failure()]. *)
Definition failures_of {A : Type} (results : list (IOResult A)) : list exn :=
  flat_map
    (fun r =>
       if derives_from_Failure (class_of_IOResult r)
       then match r with
            | IOFailure e => [e]
            | IOSuccess _ => []
            end
       else [])
    results.

(** The directory [base_path]: each family directory is absent or maps a
    file name to the content of the file of that name. *)
Record base_dir : Type := {
  bbq_dir : option (string -> option (list line));
  stereoset_dir : option (string -> option (option json))
}.

Definition bbq_categories : list string :=
  [ "Age"; "Disability_status"; "Gender_identity"; "Nationality";
    "Physical_appearance"; "Race_ethnicity"; "Race_x_SES"; "Race_x_gender";
    "Religion"; "SES"; "Sexual_orientation" ].

Definition stereoset_files : list (string * string) :=
  [ ("intersentence.json", "intersentence");
    ("intrasentence.json", "intrasentence") ].

Section Orchestrator.

Variable Session : Type.
Variable flush_bbq : Session -> list BBQ.t -> Session * option exn.
Variable flush_stereoset
  : Session -> list StereoSet.t -> Session * option exn.

Definition run_state : Type := (Session * list log_record)%type.

(** Chunk, load and report the parsed entities of one source (the same
    statements close the loop body of both loaders). *)
Definition load_entries {E : Type}
    (flush : Session -> list E -> Session * option exn)
    (family source : string) (entries : list E) (st : run_state)
  : run_state :=
  let chunks := make_chunks chunk_size entries in
  let (session', results) := gather_inserts flush (fst st) chunks in
  match failures_of results with
  | [] => (session', snd st ++ [(INFO, Loaded (List.length entries) family source)])
  | failures =>
      (session',
       snd st ++ map (fun e => (ERROR, Insert_failure family source e))
                     failures)
  end.

(** Body of the loop of [load_bbq]. *)
Definition load_bbq_category (files : string -> option (list line))
    (st : run_state) (cat : string) : run_state :=
  match files (cat ++ ".jsonl")%string with
  | None =>
      (fst st,
       snd st ++ [(WARNING, Skipping_missing_file ("bbq/" ++ cat ++ ".jsonl")%string)])
  | Some lines =>
      match parse_bbq_file lines cat with
      | Failure e => (fst st, snd st ++ [(ERROR, Failed_parsing "BBQ" cat e)])
      | Success entries => load_entries flush_bbq "BBQ" cat entries st
      end
  end.

Definition load_bbq (session : Session) (base_path : base_dir)
  : Result run_state :=
  match bbq_dir base_path with
  | None => Failure (FileNotFoundError "bbq")
  | Some files =>
      Success (fold_left (load_bbq_category files) bbq_categories
                         (session, []))
  end.

(** Body of the loop of [load_stereoset]. *)
Definition load_stereoset_file (files : string -> option (option json))
    (st : run_state) (file : string * string) : run_state :=
  let (filename, entry_type) := file in
  match files filename with
  | None =>
      (fst st,
       snd st ++ [(WARNING, Skipping_missing_file ("stereoset/" ++ filename)%string)])
  | Some content =>
      match parse_stereoset_file content entry_type with
      | Failure e =>
          (fst st, snd st ++ [(ERROR, Failed_parsing "StereoSet" filename e)])
      | Success entries =>
          load_entries flush_stereoset "StereoSet" filename entries st
      end
  end.

Definition load_stereoset (session : Session) (base_path : base_dir)
  : Result run_state :=
  match stereoset_dir base_path with
  | None => Failure (FileNotFoundError "stereoset")
  | Some files =>
      Success (fold_left (load_stereoset_file files) stereoset_files
                         (session, []))
  end.

End Orchestrator.

(** ** Persisted schema *)

(** The tables are those of the database that [main] opens by default, a
    SQLite file, with the constraints that [datasets.py] declares: the
    primary key and the [unique=True] columns, and NOT NULL for every
    field that is not optional. *)

Definition spec_float_eqb (x y : spec_float) : bool :=
  match x, y with
  | S754_zero s, S754_zero s' => Bool.eqb s s'
  | S754_infinity s, S754_infinity s' => Bool.eqb s s'
  | S754_nan, S754_nan => true
  | S754_finite s m e, S754_finite s' m' e' =>
      Bool.eqb s s' && Pos.eqb m m' && Z.eqb e e'
  | _, _ => false
  end.

(** Two column values are the same value. *)
Fixpoint json_eqb (a b : json) : bool :=
  match a, b with
  | JNull, JNull => true
  | JBool x, JBool y => Bool.eqb x y
  | JInt x, JInt y => Z.eqb x y
  | JFloat x, JFloat y => spec_float_eqb x y
  | JStr x, JStr y => String.eqb x y
  | JArr xs, JArr ys =>
      (fix items_eqb (xs ys : list json) : bool :=
         match xs, ys with
         | [], [] => true
         | x :: xs', y :: ys' => json_eqb x y && items_eqb xs' ys'
         | _, _ => false
         end) xs ys
  | JObj xs, JObj ys =>
      (fix fields_eqb (xs ys : list (string * json)) : bool :=
         match xs, ys with
         | [], [] => true
         | (k, x) :: xs', (l, y) :: ys' =>
             String.eqb k l && json_eqb x y && fields_eqb xs' ys'
         | _, _ => false
         end) xs ys
  | _, _ => false
  end.

Definition key_in (v : json) (keys : list json) : bool :=
  existsb (json_eqb v) keys.

(** The rows reached through the session.  A root row is kept with the
    child rows that were written for it; the child tables are read off the
    roots. *)
Module Database.
Record t : Type := mk {
  bbq : list BBQ.t;
  stereoset : list StereoSet.t
}.

Definition empty : t := mk [] [].

Definition bbqanswer (db : t) : list BBQAnswer.t :=
  flat_map BBQ.answers (bbq db).

Definition stereosetsentence (db : t) : list StereoSetSentence.t :=
  flat_map StereoSet.sentences (stereoset db).

End Database.

(** Flushing writes the pending objects one after the other and stops at
    the first statement that fails. *)
Fixpoint flush_rows {DB E : Type} (insert : DB -> E -> DB * option exn)
    (db : DB) (pending : list E) : DB * option exn :=
  match pending with
  | [] => (db, None)
  | x :: rest =>
      match insert db x with
      | (db', None) => flush_rows insert db' rest
      | (db', Some e) => (db', Some e)
      end
  end.

(** An object handed to [json.dumps]: one decoded from JSON (built from
    [dict], [list], [str], [int], [float], [bool] and [None]), or an
    instance of the model [AdditionalMetadata]. *)
Inductive pyobject : Type :=
| Decoded (j : json)
| Instance (m : AdditionalMetadata.t).

(** [json.dumps]: the default encoder raises [TypeError] for an object
    that is not built from the types of JSON. *)
Definition json_dumps (o : pyobject) : Result json :=
  match o with
  | Decoded j => Success j
  | Instance _ => Failure TypeError
  end.

(** The INSERT of an entry.  [BBQ.additional_metadata] is a [JSON] column
    ([sa_type=JSON]): when the parameters of the statement are prepared,
    the value of the attribute goes through [json.dumps]; the attribute
    holds the [AdditionalMetadata] object that [parse_bbq_file] built
    (line 55 passes [add_meta] itself).  An exception raised while the
    parameters are prepared reaches the caller wrapped in a
    [StatementError], before anything is sent to the database.
    [BBQ.example_id] is declared [unique=True]. *)
Definition insert_bbq (db : Database.t) (entry : BBQ.t)
  : Database.t * option exn :=
  match json_dumps (Instance (BBQ.additional_metadata entry)) with
  | Failure e => (db, Some (StatementError e))
  | Success _ =>
      if key_in (BBQ.example_id entry) (map BBQ.example_id (Database.bbq db))
      then (db, Some (IntegrityError "bbq.example_id" (BBQ.example_id entry)))
      else (Database.mk (Database.bbq db ++ [entry]) (Database.stereoset db),
            None)
  end.

Definition flush_bbq : Database.t -> list BBQ.t -> Database.t * option exn :=
  flush_rows insert_bbq.

(** What a column declared [VARCHAR] holds for a value that was bound: a
    text.  An [int] is kept as its decimal text and a [bool] as the text
    of 1 or 0.  The text that stands for a [float] is not modelled: a
    float is compared with floats only. *)
Inductive stored : Type :=
| Text (s : string)
| Real (f : spec_float).

Definition decimal (z : Z) : string := NilZero.string_of_int (Z.to_int z).

(** The exception of the driver for a value that it cannot bind.  It
    binds [None], [bool], [float], [str] and an [int] of 64 bits; it
    refuses a [list], a [dict] and a larger [int]. *)
Definition bind_error (v : json) : option exn :=
  match v with
  | JArr _ | JObj _ => Some InterfaceError
  | JInt z =>
      if Z.leb (- 9223372036854775808) z && Z.ltb z 9223372036854775808
      then None
      else Some OverflowError
  | _ => None
  end.

(** The parameters of a row are bound in the order of the columns. *)
Fixpoint first_bind_error (values : list json) : option exn :=
  match values with
  | [] => None
  | v :: rest =>
      match bind_error v with
      | Some e => Some e
      | None => first_bind_error rest
      end
  end.

(** The bound values that are NULL in the database: [None], and the
    [float] that is not a number. *)
Definition is_null (v : json) : bool :=
  match v with
  | JNull => true
  | JFloat S754_nan => true
  | _ => false
  end.

Definition stored_of (v : json) : option stored :=
  match v with
  | JStr s => Some (Text s)
  | JInt z => Some (Text (decimal z))
  | JBool b => Some (Text (if b then "1" else "0"))
  | JFloat S754_nan => None
  | JFloat f => Some (Real f)
  | _ => None
  end.

Definition same_stored (a b : option stored) : bool :=
  match a, b with
  | Some (Text s), Some (Text t) => String.eqb s t
  | Some (Real f), Some (Real g) => spec_float_eqb f g
  | _, _ => false
  end.

Section Table.

(** One INSERT statement of a flush, run over the rows of one table in
    the order in which the objects were added.  [columns] gives the
    NOT NULL columns of a row, in the order of the table, with the values
    bound to them; [unique] is the column that is a primary key or
    declared [unique=True], if the table has one. *)
Variable R : Type.
Variable table : string.
Variable columns : R -> list (string * json).
Variable unique : option (string * (R -> json)).

(** Why the database refuses the row [r] when the unique column already
    holds [taken]: a value cannot be bound, a NOT NULL column gets NULL,
    or the key is taken. *)
Definition refuse_row (taken : list (option stored)) (r : R) : option exn :=
  match first_bind_error (map snd (columns r)) with
  | Some e => Some e
  | None =>
      match find (fun cv => is_null (snd cv)) (columns r) with
      | Some (c, v) => Some (IntegrityError (table ++ "." ++ c) v)
      | None =>
          match unique with
          | Some (c, key) =>
              if existsb (same_stored (stored_of (key r))) taken
              then Some (IntegrityError (table ++ "." ++ c) (key r))
              else None
          | None => None
          end
      end
  end.

Definition key_of (r : R) : list (option stored) :=
  match unique with
  | Some (_, key) => [stored_of (key r)]
  | None => []
  end.

(** The first refusal among the rows, each row being checked against the
    keys stored before the statement and those of the rows before it. *)
Fixpoint insert_rows (taken : list (option stored)) (rows : list R)
  : option exn :=
  match rows with
  | [] => None
  | r :: rest =>
      match refuse_row taken r with
      | Some e => Some e
      | None => insert_rows (taken ++ key_of r) rest
      end
  end.

End Table.

Definition document_columns (d : StereoSet.t) : list (string * json) :=
  [ ("id", StereoSet.id d);
    ("target", StereoSet.target d);
    ("bias_type", StereoSet.bias_type d);
    ("context", StereoSet.context d);
    ("type", JStr (StereoSet.type d)) ].

Definition sentence_columns (s : StereoSetSentence.t)
  : list (string * json) :=
  [ ("sentence", StereoSetSentence.sentence s);
    ("sentence_id", StereoSetSentence.sentence_id s);
    ("gold_label", StereoSetSentence.gold_label s) ].

Definition label_columns (l : StereoSetLabel.t) : list (string * json) :=
  [ ("label", StereoSetLabel.label l);
    ("human_id", StereoSetLabel.human_id l) ].

(** The flush of a list of pending documents writes the rows table by
    table, parents first: the documents ([StereoSet.id] is the primary
    key), then their sentences ([StereoSetSentence.sentence_id] is declared
    [unique=True]), then the labels of the sentences.  The result is the
    exception of the first statement that fails, if one does. *)
Definition refuse_documents (db : Database.t) (chunk : list StereoSet.t)
  : option exn :=
  match
    insert_rows "stereoset" document_columns (Some ("id", StereoSet.id))
      (map stored_of (map StereoSet.id (Database.stereoset db))) chunk
  with
  | Some e => Some e
  | None =>
      let sentences := flat_map StereoSet.sentences chunk in
      match
        insert_rows "stereosetsentence" sentence_columns
          (Some ("sentence_id", StereoSetSentence.sentence_id))
          (map stored_of
               (map StereoSetSentence.sentence_id
                    (Database.stereosetsentence db)))
          sentences
      with
      | Some e => Some e
      | None =>
          insert_rows "stereosetlabel" label_columns None []
            (flat_map StereoSetSentence.labels sentences)
      end
  end.

(** What a failed flush wrote before the failing statement is not kept:
    [insert_chunk] rolls it back. *)
Definition flush_stereoset (db : Database.t) (chunk : list StereoSet.t)
  : Database.t * option exn :=
  match refuse_documents db chunk with
  | Some e => (db, Some e)
  | None =>
      (Database.mk (Database.bbq db) (Database.stereoset db ++ chunk), None)
  end.

(** ** Shapes of the source files *)

Definition is_str (o : json) : bool :=
  match o with JStr _ => true | _ => false end.

Definition is_int (o : json) : bool :=
  match o with JInt _ => true | _ => false end.

Definition is_str_list (o : json) : bool :=
  match o with JArr items => forallb is_str items | _ => false end.

(** A 2-element array whose second element is the tag string. *)
Definition is_answer_info_entry (o : json) : bool :=
  match o with
  | JArr [_; JStr _] => true
  | _ => false
  end.

Definition has (fields : list (string * json)) (key : string)
    (shape : json -> bool) : bool :=
  match dict_lookup fields key with
  | Some v => shape v
  | None => false
  end.

Definition is_answer_info (o : json) : bool :=
  match o with
  | JObj fields =>
      has fields "ans0" is_answer_info_entry
      && has fields "ans1" is_answer_info_entry
      && has fields "ans2" is_answer_info_entry
  | _ => false
  end.

Definition is_additional_metadata (o : json) : bool :=
  match o with
  | JObj fields =>
      has fields "subcategory" is_str
      && has fields "stereotyped_groups" is_str_list
      && has fields "version" is_str
      && has fields "source" is_str
  | _ => false
  end.

(** A well-formed line of a flat-category file. *)
Definition well_formed (l : line) : bool :=
  match l with
  | Some (JObj fields) =>
      has fields "example_id" is_int
      && has fields "question_index" is_str
      && has fields "question_polarity" is_str
      && has fields "context_condition" is_str
      && has fields "context" is_str
      && has fields "question" is_str
      && has fields "ans0" is_str
      && has fields "ans1" is_str
      && has fields "ans2" is_str
      && has fields "label" is_int
      && has fields "answer_info" is_answer_info
      && has fields "additional_metadata" is_additional_metadata
  | _ => false
  end.

(** The [example_id] a line carries ([None] when it carries none). *)
Definition line_example_id (l : line) : json :=
  match l with
  | Some (JObj fields) =>
      match dict_lookup fields "example_id" with
      | Some v => v
      | None => JNull
      end
  | _ => JNull
  end.

Definition required_fields : list string :=
  [ "example_id"; "question_index"; "question_polarity"; "context_condition";
    "context"; "question"; "ans0"; "ans1"; "ans2"; "label"; "answer_info";
    "additional_metadata" ].

Definition metadata_fields : list string :=
  [ "subcategory"; "stereotyped_groups"; "version"; "source" ].

(** The object [o] has no field [key]. *)
Definition lacks (o : json) (key : string) : bool :=
  match o with
  | JObj fields =>
      match dict_lookup fields key with
      | None => true
      | Some _ => false
      end
  | _ => false
  end.

Definition lacks_under (data : json) (section : string)
    (keys : list string) : bool :=
  match getitem data section with
  | Success o => existsb (lacks o) keys
  | Failure _ => false
  end.

(** A malformed line: not valid JSON, or an object that lacks a required
    field, an [ans{i}] key of [answer_info] or a field of the metadata. *)
Definition malformed (l : line) : bool :=
  match l with
  | None => true
  | Some data =>
      existsb (lacks data) required_fields
      || lacks_under data "answer_info" (map ans_key (seq 0 3))
      || lacks_under data "additional_metadata" metadata_fields
  end.

Definition ceil_div (n c : nat) : nat := (n + (c - 1)) / c.

(** The values held by the unique columns. *)
Definition bbq_keys (db : Database.t) : list json :=
  map BBQ.example_id (Database.bbq db).

Definition document_keys (db : Database.t) : list json :=
  map StereoSet.id (Database.stereoset db).

Definition sentence_keys (db : Database.t) : list json :=
  map StereoSetSentence.sentence_id (Database.stereosetsentence db).

(** The [ERROR] records of a log. *)
Definition errors (log : list log_record) : list log_record :=
  filter (fun r => match fst r with ERROR => true | _ => false end) log.

(** What a finished run leaves: the numbers of stored entries and answers,
    and the log. *)
Definition loaded_counts (r : Result (Database.t * list log_record))
  : option (nat * nat) :=
  match r with
  | Success (db, _) =>
      Some (List.length (Database.bbq db),
            List.length (Database.bbqanswer db))
  | Failure _ => None
  end.

Definition run_log {S : Type} (r : Result (S * list log_record))
  : list log_record :=
  match r with
  | Success (_, log) => log
  | Failure _ => []
  end.

(** The [INFO] records of a log: the counts of loaded entities. *)
Definition reports (log : list log_record) : list log_record :=
  filter (fun r => match fst r with INFO => true | _ => false end) log.

(** ** Sample sources *)

(** A directory holding the single file [name]. *)
Definition only_file {F : Type} (name : string) (content : F)
  : string -> option F :=
  fun n => if String.eqb n name then Some content else None.

Definition sample_line (example_id : Z) : line :=
  Some (JObj
    [ ("example_id", JInt example_id);
      ("question_index", JStr "1");
      ("question_polarity", JStr "neg");
      ("context_condition", JStr "ambig");
      ("category", JStr "Age");
      ("answer_info",
        JObj [ ("ans0", JArr [JStr "grandfather"; JStr "old"]);
               ("ans1", JArr [JStr "grandson"; JStr "nonOld"]);
               ("ans2", JArr [JStr "Unknown"; JStr "unknown"]) ]);
      ("additional_metadata",
        JObj [ ("subcategory", JStr "None");
               ("stereotyped_groups", JArr [JStr "old"]);
               ("version", JStr "a");
               ("source", JStr "https://example.org") ]);
      ("context", JStr "I saw a grandson and their grandfather.");
      ("question", JStr "Who was not comfortable using the phone?");
      ("ans0", JStr "The grandfather");
      ("ans1", JStr "The grandson");
      ("ans2", JStr "Unknown");
      ("label", JInt 2) ]).

(** Three lines, the second repeating the [example_id] 5 of the first. *)
Definition duplicate_file : list line :=
  [ sample_line 5; sample_line 5; sample_line 6 ].

Definition duplicate_base : base_dir :=
  {| bbq_dir := Some (only_file "Age.jsonl" duplicate_file);
     stereoset_dir := None |}.

Definition duplicate_run : Result (Database.t * list log_record) :=
  load_bbq flush_bbq Database.empty duplicate_base.

(** 1001 lines; the last one, alone in the second chunk, repeats the
    [example_id] 7 of the first chunk. *)
Definition two_chunk_file : list line :=
  map (fun n => sample_line (Z.of_nat n)) (seq 0 1000) ++ [ sample_line 7 ].

Definition two_chunk_base : base_dir :=
  {| bbq_dir := Some (only_file "Age.jsonl" two_chunk_file);
     stereoset_dir := None |}.

Definition two_chunk_run : Result (Database.t * list log_record) :=
  load_bbq flush_bbq Database.empty two_chunk_base.

Definition sample_sentence (sentence_id : string) : json :=
  JObj [ ("id", JStr sentence_id);
         ("sentence", JStr "A sentence.");
         ("gold_label", JStr "stereotype");
         ("labels",
           JArr [ JObj [ ("label", JStr "stereotype");
                         ("human_id", JStr "h1") ] ]) ].

Definition sample_document (id : string) (sentence_ids : list string)
  : json :=
  JObj [ ("id", JStr id);
         ("target", JStr "Ethiopia");
         ("bias_type", JStr "race");
         ("context", JStr "Many people live in Ethiopia.");
         ("sentences", JArr (map sample_sentence sentence_ids)) ].

(** The same document id in both type files, with different sentences. *)
Definition shared_document_base : base_dir :=
  {| bbq_dir := None;
     stereoset_dir :=
       Some (fun n =>
         if String.eqb n "intersentence.json"
         then Some (Some (JObj [ ("version", JStr "1.0");
                 ("data", JObj [ ("intersentence",
                    JArr [ sample_document "d1" ["s1"; "s2"] ]) ]) ]))
         else if String.eqb n "intrasentence.json"
         then Some (Some (JObj [ ("version", JStr "1.0");
                 ("data", JObj [ ("intrasentence",
                    JArr [ sample_document "d1" ["s3"] ]) ]) ]))
         else None) |}.

Definition shared_document_run : Result (Database.t * list log_record) :=
  load_stereoset flush_stereoset Database.empty shared_document_base.

(** The entries parsed from [duplicate_file]. *)
Definition duplicate_chunk : list BBQ.t :=
  match parse_bbq_file duplicate_file "Age" with
  | Success entries => entries
  | Failure _ => []
  end.

(** One well-formed line followed by a line that is not valid JSON. *)
Definition broken_file : list line := [ sample_line 1; None ].

(** What [d.get(key)] returns for a lookup in [d]. *)
Definition value_or_none (found : option json) : json :=
  match found with
  | Some v => v
  | None => JNull
  end.

(** A data section whose lowercase key holds an empty array and whose
    capitalized key holds one document. *)
Definition empty_lowercase_section : json :=
  JObj [ ("data",
          JObj [ ("intersentence", JArr []);
                 ("Intersentence", JArr [ sample_document "d1" ["s1"] ]) ]) ].

(** Two parsed documents with the same identifier. *)
Definition repeated_documents : list StereoSet.t :=
  match
    parse_stereoset_file
      (Some (JObj [ ("data",
                     JObj [ ("intersentence",
                             JArr [ sample_document "d1" ["s1"];
                                    sample_document "d1" ["s2"] ]) ]) ]))
      "intersentence"
  with
  | Success documents => documents
  | Failure _ => []
  end.

(** ** What a successful parse returns *)

(** Answer [i] of the line object [data]. *)
Definition answer_of (data : json) (i : nat) (a : BBQAnswer.t) : Prop :=
  BBQAnswer.index a = i
  /\ getitem data (ans_key i) = Success (BBQAnswer.text a)
  /\ (info <- getitem data "answer_info" ;;
      pair <- getitem info (ans_key i) ;;
      getitem_int pair 1) = Success (BBQAnswer.tag a).

(** The entry that stands for the line [l] of the file of category [cat]. *)
Definition line_entry (cat : string) (l : line) (e : BBQ.t) : Prop :=
  exists data kw,
    l = Some data
    /\ BBQ.category e = JStr cat
    /\ getitem data "example_id" = Success (BBQ.example_id e)
    /\ getitem data "question_index" = Success (BBQ.question_index e)
    /\ getitem data "question_polarity" = Success (BBQ.question_polarity e)
    /\ getitem data "context_condition" = Success (BBQ.context_condition e)
    /\ getitem data "context" = Success (BBQ.context e)
    /\ getitem data "question" = Success (BBQ.question e)
    /\ getitem data "ans0" = Success (BBQ.ans0 e)
    /\ getitem data "ans1" = Success (BBQ.ans1 e)
    /\ getitem data "ans2" = Success (BBQ.ans2 e)
    /\ getitem data "label" = Success (BBQ.label e)
    /\ getitem data "additional_metadata" = Success (JObj kw)
    /\ new_AdditionalMetadata kw = Success (BBQ.additional_metadata e)
    /\ Forall2 (answer_of data) (seq 0 3) (BBQ.answers e).

(** The entries parsed from two sample lines under the category [cat]. *)
Definition sample_entries (cat : string) : list BBQ.t :=
  match parse_bbq_file [sample_line 1; sample_line 2] cat with
  | Success entries => entries
  | Failure _ => []
  end.

(** The label, sentence and document that stand for a raw object. *)
Definition label_of (l : json) (x : StereoSetLabel.t) : Prop :=
  getitem l "label" = Success (StereoSetLabel.label x)
  /\ getitem l "human_id" = Success (StereoSetLabel.human_id x).

Definition sentence_of (s : json) (x : StereoSetSentence.t) : Prop :=
  getitem s "sentence" = Success (StereoSetSentence.sentence x)
  /\ getitem s "id" = Success (StereoSetSentence.sentence_id x)
  /\ getitem s "gold_label" = Success (StereoSetSentence.gold_label x)
  /\ exists raw_labels items,
       getitem s "labels" = Success raw_labels
       /\ iterate raw_labels = Success items
       /\ Forall2 label_of items (StereoSetSentence.labels x).

Definition document_of (entry_type : string) (d : json) (x : StereoSet.t)
  : Prop :=
  StereoSet.type x = entry_type
  /\ getitem d "id" = Success (StereoSet.id x)
  /\ getitem d "target" = Success (StereoSet.target x)
  /\ getitem d "bias_type" = Success (StereoSet.bias_type x)
  /\ getitem d "context" = Success (StereoSet.context x)
  /\ exists raw_sentences items,
       getitem d "sentences" = Success raw_sentences
       /\ iterate raw_sentences = Success items
       /\ Forall2 sentence_of items (StereoSet.sentences x).

Definition document_fields : list string :=
  [ "sentences"; "id"; "target"; "bias_type"; "context" ].

Definition sentence_fields : list string :=
  [ "labels"; "sentence"; "id"; "gold_label" ].

Definition label_fields : list string := [ "label"; "human_id" ].

(** The items of the array under [key], or nothing. *)
Definition array_under (o : json) (key : string) : list json :=
  match getitem o key with
  | Success (JArr items) => items
  | _ => []
  end.

Definition malformed_label (l : json) : bool :=
  existsb (lacks l) label_fields.

Definition malformed_sentence (s : json) : bool :=
  existsb (lacks s) sentence_fields
  || existsb malformed_label (array_under s "labels").

(** A raw document that lacks a field, or has a sentence or a label that
    lacks one. *)
Definition malformed_document (d : json) : bool :=
  existsb (lacks d) document_fields
  || existsb malformed_sentence (array_under d "sentences").

(** A nested-document file with one good document and one whose sentence
    has no [gold_label]. *)
Definition broken_document : json :=
  JObj [ ("id", JStr "d2");
         ("target", JStr "t");
         ("bias_type", JStr "race");
         ("context", JStr "c");
         ("sentences",
           JArr [ JObj [ ("id", JStr "s2");
                         ("sentence", JStr "x");
                         ("labels", JArr []) ] ]) ].

Definition broken_documents : list json :=
  [ sample_document "d1" ["s1"]; broken_document ].

Definition broken_document_raw : json :=
  JObj [ ("data", JObj [ ("intersentence", JArr broken_documents) ]) ].



(** A directory with one file of each family, and the runs of the two
    loaders on it, entries first. *)
Definition both_families_base : base_dir :=
  {| bbq_dir := Some (only_file "Age.jsonl" [sample_line 1; sample_line 2]);
     stereoset_dir := stereoset_dir shared_document_base |}.

Definition state_of (r : Result (Database.t * list log_record))
  : Database.t * list log_record :=
  match r with
  | Success st => st
  | Failure _ => (Database.empty, [])
  end.

Definition after_bbq : Database.t * list log_record :=
  state_of (load_bbq flush_bbq Database.empty both_families_base).


(** The second type file of [shared_document_base], and the documents
    parsed from it. *)
Definition shared_document_second : option json :=
  Some (JObj [ ("version", JStr "1.0");
               ("data", JObj [ ("intrasentence",
                  JArr [ sample_document "d1" ["s3"] ]) ]) ]).

Definition shared_document_chunk : list StereoSet.t :=
  match parse_stereoset_file shared_document_second "intrasentence" with
  | Success documents => documents
  | Failure _ => []
  end.

(** Two type files with different documents that share the sentence
    identifier s2. *)
Definition shared_sentence_base : base_dir :=
  {| bbq_dir := None;
     stereoset_dir :=
       Some (fun n =>
         if String.eqb n "intersentence.json"
         then Some (Some (JObj [ ("data", JObj [ ("intersentence",
                    JArr [ sample_document "d1" ["s1"; "s2"] ]) ]) ]))
         else if String.eqb n "intrasentence.json"
         then Some (Some (JObj [ ("data", JObj [ ("intrasentence",
                    JArr [ sample_document "d2" ["s2"] ]) ]) ]))
         else None) |}.

Definition shared_sentence_run : Result (Database.t * list log_record) :=
  load_stereoset flush_stereoset Database.empty shared_sentence_base.

(** One parsed document whose two sentences have the same identifier. *)
Definition repeated_sentence_chunk : list StereoSet.t :=
  match
    parse_stereoset_file
      (Some (JObj [ ("data",
                     JObj [ ("intersentence",
                             JArr [ sample_document "d1" ["s1"; "s1"] ]) ]) ]))
      "intersentence"
  with
  | Success documents => documents
  | Failure _ => []
  end.

(** The document and the sentence numbered [n]. *)
Definition numbered_document (n : nat) : json :=
  sample_document ("d" ++ decimal (Z.of_nat n))%string
                  [ ("s" ++ decimal (Z.of_nat n))%string ].

(** A type file of 1001 documents, numbered 1, 1, 2, ..., 1000: the first
    chunk holds the identifier d1 twice, the second chunk is the single
    document numbered 1000. *)
Definition blocked_file : option json :=
  Some (JObj [ ("data",
                JObj [ ("intersentence",
                        JArr (numbered_document 1
                              :: map numbered_document (seq 1 1000))) ]) ]).

Definition blocked_base : base_dir :=
  {| bbq_dir := None;
     stereoset_dir := Some (only_file "intersentence.json" blocked_file) |}.

Definition blocked_run : Result (Database.t * list log_record) :=
  load_stereoset flush_stereoset Database.empty blocked_base.

Definition blocked_entries : list StereoSet.t :=
  match parse_stereoset_file blocked_file "intersentence" with
  | Success documents => documents
  | Failure _ => []
  end.

(** The tables of a finished run. *)
Definition tables (r : Result (Database.t * list log_record))
  : option Database.t :=
  match r with
  | Success (db, _) => Some db
  | Failure _ => None
  end.

(** The record that a loader writes for one source. *)
Definition bbq_record (files : string -> option (list line)) (cat : string)
  : log_record :=
  match files (cat ++ ".jsonl")%string with
  | None =>
      (WARNING, Skipping_missing_file ("bbq/" ++ cat ++ ".jsonl")%string)
  | Some lines =>
      match parse_bbq_file lines cat with
      | Failure e => (ERROR, Failed_parsing "BBQ" cat e)
      | Success entries => (INFO, Loaded (List.length entries) "BBQ" cat)
      end
  end.

Definition stereoset_record (files : string -> option (option json))
    (file : string * string) : log_record :=
  match files (fst file) with
  | None =>
      (WARNING, Skipping_missing_file ("stereoset/" ++ fst file)%string)
  | Some content =>
      match parse_stereoset_file content (snd file) with
      | Failure e => (ERROR, Failed_parsing "StereoSet" (fst file) e)
      | Success entries =>
          (INFO, Loaded (List.length entries) "StereoSet" (fst file))
      end
  end.








(** ** Download ([scripts/download_datasets.py]) *)

(** The files are a map from paths to nodes; the network is what
    [requests.get] gives for a URL.  The progress display has no effect on
    files or results and is left out. *)
Module Download.

Inductive error : Type :=
| RequestException (detail : string)
| HTTPError (status : nat)
| ValueError
| FileNotFoundError (path : string)
| NotADirectoryError (path : string)
| IsADirectoryError (path : string).

(** A [returns.Result] of this script, and a call that returns or raises. *)
Inductive attempt (A : Type) : Type :=
| Succeeded (a : A)
| Failed (e : error).

Inductive outcome (A : Type) : Type :=
| Returned (a : A)
| Raised (e : error).

Arguments Succeeded {A} a.
Arguments Failed {A} e.
Arguments Returned {A} a.
Arguments Raised {A} e.

Inductive node : Type :=
| Directory
| RegularFile (content : string).

Definition filesystem : Type := string -> option node.

Definition write (fs : filesystem) (p : string) (n : node) : filesystem :=
  fun q => if String.eqb q p then Some n else fs q.

Definition remove (fs : filesystem) (p : string) : filesystem :=
  fun q => if String.eqb q p then None else fs q.

(** [p.exists()] *)
Definition path_exists (fs : filesystem) (p : string) : bool :=
  match fs p with
  | Some _ => true
  | None => false
  end.

(** [p.unlink(missing_ok=True)] *)
Definition unlink (fs : filesystem) (p : string)
  : filesystem * option error :=
  match fs p with
  | None => (fs, None)
  | Some (RegularFile _) => (remove fs p, None)
  | Some Directory => (fs, Some (IsADirectoryError p))
  end.

(** [tmp.replace(dest)] *)
Definition replace (fs : filesystem) (tmp dest : string)
  : filesystem * option error :=
  match fs tmp with
  | Some (RegularFile content) =>
      match fs dest with
      | Some Directory => (fs, Some (IsADirectoryError dest))
      | _ => (write (remove fs tmp) dest (RegularFile content), None)
      end
  | Some Directory => (fs, Some (IsADirectoryError tmp))
  | None => (fs, Some (FileNotFoundError tmp))
  end.

(** [tmp_file.write(chunk)] on the open temporary file. *)
Definition append (fs : filesystem) (tmp chunk : string) : filesystem :=
  match fs tmp with
  | Some (RegularFile content) =>
      write fs tmp (RegularFile (content ++ chunk)%string)
  | _ => fs
  end.

(** [TempDownload.__enter__]: [NamedTemporaryFile] creates the new, empty
    file [tmp] in [parent], the directory of the destination. *)
Definition TempDownload_enter (fs : filesystem) (parent tmp : string)
  : filesystem * option error :=
  match fs parent with
  | Some Directory => (write fs tmp (RegularFile ""), None)
  | Some (RegularFile _) => (fs, Some (NotADirectoryError parent))
  | None => (fs, Some (FileNotFoundError parent))
  end.

(** [TempDownload.__exit__]: the file is closed; without exception it
    replaces the destination, with one it is removed.  The exception of the
    block is never swallowed. *)
Definition TempDownload_exit (fs : filesystem) (tmp dest : string)
    (exception : bool) : filesystem * option error :=
  if exception then unlink fs tmp else replace fs tmp dest.

(** A response: what [raise_for_status] raises, the [content-length]
    header (absent, not an integer, or a number), the chunks that
    [iter_content] yields and what it raises after them. *)
Record response : Type := {
  status_error : option error;
  content_length : option (option Z);
  chunks : list string;
  stream_error : option error
}.

Inductive note : Type :=
| Already_exists (dest : string)
| Removed_existing (dest : string)
| Downloaded (dest : string)
| Failed_to_download (url dest : string) (e : error).

(** [int(r.headers.get('content-length', 0))] *)
Definition total (r : response) : attempt Z :=
  match content_length r with
  | None => Succeeded 0%Z
  | Some None => Failed ValueError
  | Some (Some n) => Succeeded n
  end.

(** The inner function [_download] ([@safe]). *)
Definition _download (network : string -> attempt response)
    (url dest parent tmp : string) (fs : filesystem) (log : list note)
  : filesystem * list note * attempt unit :=
  match network url with
  | Failed e => (fs, log, Failed e)
  | Succeeded r =>
      match status_error r with
      | Some e => (fs, log, Failed e)
      | None =>
          match total r with
          | Failed e => (fs, log, Failed e)
          | Succeeded _ =>
              match TempDownload_enter fs parent tmp with
              | (fs0, Some e) => (fs0, log, Failed e)
              | (fs1, None) =>
                  let fs2 := fold_left (fun f chunk => append f tmp chunk)
                                       (chunks r) fs1 in
                  match stream_error r with
                  | Some e =>
                      (fst (TempDownload_exit fs2 tmp dest true), log,
                       Failed e)
                  | None =>
                      match TempDownload_exit fs2 tmp dest false with
                      | (fs3, Some e) => (fs3, log, Failed e)
                      | (fs3, None) =>
                          (fs3, log ++ [Downloaded dest], Succeeded tt)
                      end
                  end
              end
          end
      end
  end.

(** [download_file] *)
Definition download_file (network : string -> attempt response)
    (url dest parent tmp : string) (force : bool)
    (fs : filesystem) (log : list note)
  : filesystem * list note * outcome (attempt unit) :=
  if path_exists fs dest && negb force
  then (fs, log ++ [Already_exists dest], Returned (Succeeded tt))
  else
    let removed :=
      if force && path_exists fs dest
      then
        match unlink fs dest with
        | (fs', None) => Returned (fs', log ++ [Removed_existing dest])
        | (_, Some e) => Raised e
        end
      else Returned (fs, log) in
    match removed with
    | Raised e => (fs, log, Raised e)
    | Returned (fs1, log1) =>
        match _download network url dest parent tmp fs1 log1 with
        | (fs2, log2, Failed e) =>
            (fs2, log2 ++ [Failed_to_download url dest e],
             Returned (Failed e))
        | (fs2, log2, Succeeded u) => (fs2, log2, Returned (Succeeded u))
        end
    end.

(** A directory with one old file, and a response of two chunks. *)
Definition sample_fs : filesystem :=
  write (write (fun _ => None) "datasets/bbq" Directory)
        "datasets/bbq/Age.jsonl" (RegularFile "old").

Definition sample_response : response :=
  {| status_error := None;
     content_length := Some (Some 6%Z);
     chunks := ["abc"; "def"];
     stream_error := None |}.

Definition broken_response : response :=
  {| status_error := None;
     content_length := None;
     chunks := ["abc"];
     stream_error := Some (RequestException "connection reset") |}.

End Download.

(** A forced download over the old file that breaks after one chunk, and a
    download of a new file that succeeds. *)
Definition forced_failed_run
  : Download.filesystem * list Download.note
    * Download.outcome (Download.attempt unit) :=
  Download.download_file
    (fun _ => Download.Succeeded Download.broken_response)
    "https://example.org/Age.jsonl" "datasets/bbq/Age.jsonl" "datasets/bbq"
    "datasets/bbq/Age.k3x9.part" true Download.sample_fs [].

Definition new_file_run
  : Download.filesystem * list Download.note
    * Download.outcome (Download.attempt unit) :=
  Download.download_file
    (fun _ => Download.Succeeded Download.sample_response)
    "https://example.org/SES.jsonl" "datasets/bbq/SES.jsonl" "datasets/bbq"
    "datasets/bbq/SES.k3x9.part" false Download.sample_fs [].

(** * Properties *)

(** ** Chunker *)

Lemma ceil_div_zero (c : nat) : 1 <= c -> ceil_div 0 c = 0.
Proof.
  intros Hc. unfold ceil_div. apply Nat.div_small. lia.
Qed.

Lemma ceil_div_step (c n : nat) :
  1 <= c -> 0 < n -> ceil_div n c = S (ceil_div (n - c) c).
Proof.
  intros Hc Hn. unfold ceil_div.
  destruct (le_lt_dec n c) as [Hle | Hlt].
  - replace (n - c) with 0 by lia.
    rewrite (Nat.div_small (0 + (c - 1)) c) by lia.
    symmetry. apply Nat.div_unique with (r := n - 1); lia.
  - replace (n + (c - 1)) with ((n - c + (c - 1)) + 1 * c) by lia.
    rewrite Nat.div_add by lia. lia.
Qed.

Lemma ceil_div_lt (c n k : nat) :
  1 <= c -> (k < ceil_div n c <-> k * c < n).
Proof.
  intros Hc. unfold ceil_div. split; intros H.
  - destruct (le_lt_dec n (k * c)) as [Hle | Hlt]; [ | exact Hlt ].
    exfalso.
    assert ((n + (c - 1)) / c < S k); [ | lia ].
    apply Nat.Div0.div_lt_upper_bound; nia.
  - apply Nat.div_le_lower_bound; nia.
Qed.

Lemma range_from_spec (c : nat) :
  1 <= c ->
  forall fuel start stop,
    stop - start <= fuel ->
    range_from fuel start stop c
    = map (fun k => start + k * c) (seq 0 (ceil_div (stop - start) c)).
Proof.
  intros Hc. induction fuel as [ | fuel IH]; intros start stop Hfuel.
  - replace (stop - start) with 0 by lia.
    rewrite ceil_div_zero by exact Hc. reflexivity.
  - simpl. destruct (start <? stop) eqn:Hlt.
    + apply Nat.ltb_lt in Hlt.
      rewrite (ceil_div_step (n := stop - start)) by lia.
      rewrite <- cons_seq, <- seq_shift, map_cons, map_map.
      rewrite IH by lia.
      replace (stop - (start + c)) with (stop - start - c) by lia.
      f_equal; [ lia | ].
      apply map_ext. intros k. simpl. lia.
    + apply Nat.ltb_ge in Hlt.
      replace (stop - start) with 0 by lia.
      rewrite ceil_div_zero by exact Hc. reflexivity.
Qed.

Section Chunks.

Variable A : Type.
Variable c : nat.
Hypothesis c_positive : 1 <= c.

Lemma make_chunks_spec (entries : list A) :
  make_chunks c entries
  = map (fun k => slice entries (k * c) (k * c + c))
        (seq 0 (ceil_div (List.length entries) c)).
Proof.
  unfold make_chunks, range.
  rewrite range_from_spec by (exact c_positive || lia).
  rewrite map_map, Nat.sub_0_r. reflexivity.
Qed.

Lemma make_chunks_length (entries : list A) :
  List.length (make_chunks c entries) = ceil_div (List.length entries) c.
Proof.
  rewrite make_chunks_spec, length_map, length_seq. reflexivity.
Qed.

Lemma concat_slices (entries : list A) :
  forall fuel start,
    List.length entries - start <= fuel ->
    List.concat (map (fun i => slice entries i (i + c))
                (range_from fuel start (List.length entries) c))
    = skipn start entries.
Proof.
  induction fuel as [ | fuel IH]; intros start Hfuel; simpl.
  - symmetry. apply skipn_all2. lia.
  - destruct (start <? List.length entries) eqn:Hlt; simpl.
    + rewrite IH by lia. unfold slice.
      replace (start + c - start) with c by lia.
      rewrite Nat.add_comm, <- skipn_skipn.
      apply firstn_skipn.
    + apply Nat.ltb_ge in Hlt. symmetry. apply skipn_all2. exact Hlt.
Qed.

Lemma make_chunks_concat (entries : list A) :
  List.concat (make_chunks c entries) = entries.
Proof.
  unfold make_chunks, range. rewrite concat_slices by lia. reflexivity.
Qed.

Lemma make_chunks_nth (entries : list A) (k : nat) :
  k < List.length (make_chunks c entries) ->
  nth k (make_chunks c entries) [] = slice entries (k * c) (k * c + c).
Proof.
  rewrite make_chunks_length. intros Hk.
  rewrite make_chunks_spec.
  rewrite (nth_indep _ [] (slice entries (0 * c) (0 * c + c)))
    by (rewrite length_map, length_seq; exact Hk).
  rewrite (map_nth (fun k => slice entries (k * c) (k * c + c))).
  rewrite seq_nth by exact Hk. reflexivity.
Qed.

Lemma slice_length (entries : list A) (i : nat) :
  List.length (slice entries i (i + c))
  = Nat.min c (List.length entries - i).
Proof.
  unfold slice. rewrite length_firstn, length_skipn.
  replace (i + c - i) with c by lia. reflexivity.
Qed.

End Chunks.

(** C2: for a chunk size [c >= 1] (the loaders use [chunk_size], 1000),
    [make_chunks] yields ceil(N/c) chunks; chunk [k] is the slice of the
    input from position [k*c] up to [k*c + c], so the chunks are contiguous,
    disjoint and in input order; every chunk but the last has [c] elements,
    the last has between 1 and [c]; the concatenation of the chunks is the
    input. *)
Theorem make_chunks_partition (A : Type) (entries : list A) (c : nat) :
  1 <= c ->
  let chunks := make_chunks c entries in
  List.length chunks = ceil_div (List.length entries) c
  /\ List.concat chunks = entries
  /\ (forall k, k < List.length chunks ->
        nth k chunks [] = slice entries (k * c) (k * c + c))
  /\ (forall k, S k < List.length chunks -> List.length (nth k chunks []) = c)
  /\ (forall k, S k = List.length chunks ->
        1 <= List.length (nth k chunks []) <= c).
Proof.
  intros Hc chunks. subst chunks.
  split; [ apply make_chunks_length; exact Hc | ].
  split; [ apply make_chunks_concat; exact Hc | ].
  split; [ intros k Hk; apply make_chunks_nth; assumption | ].
  split.
  - intros k Hk.
    rewrite make_chunks_nth by (assumption || lia).
    rewrite slice_length by exact Hc.
    rewrite make_chunks_length in Hk by exact Hc.
    apply ceil_div_lt in Hk; [ | exact Hc ]. nia.
  - intros k Hk.
    rewrite make_chunks_nth by (assumption || lia).
    rewrite slice_length by exact Hc.
    rewrite make_chunks_length in Hk by exact Hc.
    assert (Hin : k < ceil_div (List.length entries) c) by lia.
    assert (Hout : ~ S k < ceil_div (List.length entries) c) by lia.
    rewrite ceil_div_lt in Hin, Hout by exact Hc. nia.
Qed.

Lemma make_chunks_partition_witness :
  1 <= 2 /\
  let chunks := make_chunks 2 [10; 20; 30; 40; 50] in
  List.length chunks = ceil_div 5 2
  /\ List.concat chunks = [10; 20; 30; 40; 50]
  /\ (forall k, k < List.length chunks ->
        nth k chunks [] = slice [10; 20; 30; 40; 50] (k * 2) (k * 2 + 2))
  /\ (forall k, S k < List.length chunks -> List.length (nth k chunks []) = 2)
  /\ (forall k, S k = List.length chunks ->
        1 <= List.length (nth k chunks []) <= 2).
Proof.
  split; [ lia | ].
  apply (@make_chunks_partition nat [10; 20; 30; 40; 50] 2). lia.
Defined.

(** ** Dictionaries *)

Lemma dict_lookup_set_same (fields : list (string * json)) (key : string)
    (v : json) :
  dict_lookup (dict_set fields key v) key = Some v.
Proof.
  induction fields as [ | [k w] rest IH]; simpl.
  - rewrite String.eqb_refl. reflexivity.
  - destruct (String.eqb k key) eqn:Hk; simpl; rewrite Hk.
    + reflexivity.
    + exact IH.
Qed.

Lemma dict_lookup_set_other (fields : list (string * json))
    (key k : string) (v : json) :
  k <> key ->
  dict_lookup (dict_set fields key v) k = dict_lookup fields k.
Proof.
  intros Hne. induction fields as [ | [k' w] rest IH]; simpl.
  - destruct (String.eqb key k) eqn:Hk; [ | reflexivity ].
    apply String.eqb_eq in Hk. congruence.
  - destruct (String.eqb k' key) eqn:Hk'; simpl.
    + apply String.eqb_eq in Hk'. subst k'.
      destruct (String.eqb key k) eqn:Hk; [ | reflexivity ].
      apply String.eqb_eq in Hk. congruence.
    + rewrite IH. reflexivity.
Qed.

Lemma getitem_category (fields : list (string * json)) (cat : string) :
  getitem (JObj (dict_set fields "category" (JStr cat))) "category"
  = Success (JStr cat).
Proof.
  unfold getitem. rewrite dict_lookup_set_same. reflexivity.
Qed.

Lemma getitem_beside_category (fields : list (string * json))
    (cat key : string) :
  key <> "category" ->
  getitem (JObj (dict_set fields "category" (JStr cat))) key
  = getitem (JObj fields) key.
Proof.
  intros Hne. unfold getitem.
  rewrite dict_lookup_set_other by exact Hne. reflexivity.
Qed.

Lemma has_getitem (fields : list (string * json)) (key : string)
    (shape : json -> bool) :
  has fields key shape = true ->
  exists v, getitem (JObj fields) key = Success v /\ shape v = true.
Proof.
  unfold has, getitem. destruct (dict_lookup fields key) as [v | ].
  - intros Hv. exists v. split; [ reflexivity | exact Hv ].
  - discriminate.
Qed.

(** ** Loops *)

Lemma for_each_length {A B : Type} (body : A -> Result B) :
  forall xs ys, for_each body xs = Success ys -> List.length ys = List.length xs.
Proof.
  induction xs as [ | x rest IH]; simpl; intros ys H.
  - injection H as <-. reflexivity.
  - destruct (body x) as [y | e]; simpl in H; [ | discriminate ].
    destruct (for_each body rest) as [ys' | e]; simpl in H; [ | discriminate ].
    injection H as <-. simpl. f_equal. apply IH. reflexivity.
Qed.

Lemma for_each_success {A B : Type} (body : A -> Result B) :
  forall xs,
    (forall x, In x xs -> exists y, body x = Success y) ->
    exists ys, for_each body xs = Success ys.
Proof.
  induction xs as [ | x rest IH]; simpl; intros H.
  - exists []. reflexivity.
  - destruct (H x (or_introl eq_refl)) as [y Hy].
    destruct IH as [ys Hys]; [ intros z Hz; apply H; right; exact Hz | ].
    exists (y :: ys). rewrite Hy, Hys. reflexivity.
Qed.

Lemma for_each_failure {A B : Type} (body : A -> Result B) :
  forall xs x e,
    In x xs -> body x = Failure e ->
    exists e', for_each body xs = Failure e'.
Proof.
  induction xs as [ | x0 rest IH]; simpl; intros x e Hin Hx.
  - contradiction.
  - destruct (body x0) as [y | e0] eqn:Hx0; simpl.
    + destruct Hin as [-> | Hin]; [ congruence | ].
      destruct (IH x e Hin Hx) as [e' He']. rewrite He'. simpl.
      exists e'. reflexivity.
    + exists e0. reflexivity.
Qed.

(** ** Flat-category parser on well-formed lines *)

Lemma str_items_valid (name : string) :
  forall items,
    forallb is_str items = true ->
    exists l, for_each (str_item name) items = Success l.
Proof.
  intros items H. apply for_each_success. intros x Hx.
  rewrite forallb_forall in H. specialize (H x Hx).
  destruct x; try discriminate. eexists. reflexivity.
Qed.

Lemma metadata_valid (o : json) :
  is_additional_metadata o = true ->
  exists fields m,
    kwargs o = Success fields /\ new_AdditionalMetadata fields = Success m.
Proof.
  destruct o as [ | | | | | | fields]; try discriminate. simpl.
  intros H. repeat (apply andb_prop in H; destruct H as [H ?]).
  unfold has in *.
  destruct (dict_lookup fields "subcategory")
    as [[ | | | | s1 | | ] | ] eqn:E1; try discriminate.
  destruct (dict_lookup fields "stereotyped_groups")
    as [[ | | | | | g | ] | ] eqn:E2; try discriminate.
  destruct (dict_lookup fields "version")
    as [[ | | | | s2 | | ] | ] eqn:E3; try discriminate.
  destruct (dict_lookup fields "source")
    as [[ | | | | s3 | | ] | ] eqn:E4; try discriminate.
  destruct (@str_items_valid "stereotyped_groups" g) as [l Hl];
    [ assumption | ].
  exists fields, (AdditionalMetadata.mk s1 l s2 s3).
  split; [ reflexivity | ].
  unfold new_AdditionalMetadata, str_field, str_list_field.
  rewrite E1, E2, E3, E4. simpl. rewrite Hl. reflexivity.
Qed.

Lemma answer_valid (fields info : list (string * json)) (cat : string)
    (i : nat) (key : string) :
  key = ans_key i ->
  key <> "category" ->
  has fields key is_str = true ->
  dict_lookup fields "answer_info" = Some (JObj info) ->
  has info key is_answer_info_entry = true ->
  exists a,
    build_answer (JObj (dict_set fields "category" (JStr cat))) i = Success a
    /\ BBQAnswer.index a = i.
Proof.
  intros -> Hne Htext Hinfo Hpair.
  apply has_getitem in Htext. destruct Htext as (txt & Htxt & _).
  apply has_getitem in Hpair. destruct Hpair as (pair & Hpair & Hshape).
  unfold build_answer.
  rewrite (getitem_beside_category _ _ Hne), Htxt. cbn [bind].
  rewrite getitem_beside_category by discriminate.
  unfold getitem at 1. rewrite Hinfo. cbn [bind].
  rewrite Hpair. cbn [bind].
  destruct pair as [ | | | | | [ | x [ | [ | | | | t | | ] [ | ? ?]]] | ];
    try discriminate.
  simpl. eexists. split; reflexivity.
Qed.

Lemma parse_bbq_line_well_formed (cat : string) (l : line) :
  well_formed l = true ->
  exists entry,
    parse_bbq_line cat l = Success entry
    /\ map BBQAnswer.index (BBQ.answers entry) = [0; 1; 2]
    /\ BBQ.example_id entry = line_example_id l
    /\ is_int (BBQ.example_id entry) = true.
Proof.
  destruct l as [[ | | | | | | fields] | ]; try discriminate.
  simpl well_formed. intros H.
  repeat (apply andb_prop in H; destruct H as [H ?]).
  match goal with
  | Hi : has fields "answer_info" _ = true |- _ =>
      apply has_getitem in Hi; destruct Hi as (info & Hinfo & Hishape)
  end.
  destruct info as [ | | | | | | info]; try discriminate.
  simpl in Hishape.
  repeat (apply andb_prop in Hishape; destruct Hishape as [Hishape ?]).
  assert (Hlookup : dict_lookup fields "answer_info" = Some (JObj info)).
  { unfold getitem in Hinfo.
    destruct (dict_lookup fields "answer_info"); congruence. }
  destruct (@answer_valid fields info cat 0 "ans0") as (a0 & Ha0 & Hi0);
    try (reflexivity || discriminate || assumption).
  destruct (@answer_valid fields info cat 1 "ans1") as (a1 & Ha1 & Hi1);
    try (reflexivity || discriminate || assumption).
  destruct (@answer_valid fields info cat 2 "ans2") as (a2 & Ha2 & Hi2);
    try (reflexivity || discriminate || assumption).
  match goal with
  | Hm : has fields "additional_metadata" _ = true |- _ =>
      apply has_getitem in Hm; destruct Hm as (meta & Hmeta & Hmshape)
  end.
  destruct (metadata_valid _ Hmshape) as (kw & m & Hkw & Hm).
  repeat match goal with
  | Hf : has fields _ _ = true |- _ =>
      apply has_getitem in Hf; destruct Hf as (? & ? & ?)
  end.
  unfold parse_bbq_line. cbn [json_loads setitem bind for_each seq]. rewrite Ha0, Ha1, Ha2. cbn [bind].
  rewrite getitem_category.
  rewrite !getitem_beside_category by discriminate.
  rewrite Hmeta. cbn [bind]. rewrite Hkw. cbn [bind]. rewrite Hm. cbn [bind].
  repeat match goal with
  | Hg : getitem (JObj fields) _ = Success _ |- _ =>
      rewrite Hg; cbn [bind]
  end.
  eexists. split; [ reflexivity | ]. simpl.
  rewrite Hi0, Hi1, Hi2.
  split; [ reflexivity | ].
  match goal with
  | Hg : getitem (JObj fields) "example_id" = Success ?v |- _ =>
      unfold getitem in Hg;
      destruct (dict_lookup fields "example_id"); [ | discriminate ];
      injection Hg as ->
  end.
  split; [ reflexivity | assumption ].
Qed.

(** ** Column values *)

Lemma spec_float_eqb_refl (f : spec_float) : spec_float_eqb f f = true.
Proof.
  destruct f as [s | s | | s m e]; simpl.
  - apply Bool.eqb_reflx.
  - apply Bool.eqb_reflx.
  - reflexivity.
  - rewrite Bool.eqb_reflx, Pos.eqb_refl, Z.eqb_refl. reflexivity.
Qed.

Lemma NoDup_snoc {A : Type} (l : list A) (x : A) :
  NoDup l -> ~ In x l -> NoDup (l ++ [x]).
Proof.
  intros Hl Hx. induction Hl as [ | y l Hy Hl IH]; simpl.
  - constructor; [ intros [] | constructor ].
  - constructor.
    + rewrite in_app_iff. simpl. intros [H | [H | []]].
      * contradiction.
      * subst. apply Hx. left. reflexivity.
    + apply IH. intros H. apply Hx. right. exact H.
Qed.


(** ** One INSERT statement over a table with a unique column *)


Lemma same_stored_refl (x : stored) : same_stored (Some x) (Some x) = true.
Proof.
  destruct x; simpl; [ apply String.eqb_refl | apply spec_float_eqb_refl ].
Qed.


Lemma stored_of_bound (v : json) :
  bind_error v = None -> is_null v = false -> exists x, stored_of v = Some x.
Proof.
  destruct v as [ | b | z | f | s | items | fields ]; simpl;
    try discriminate; intros _ Hnull.
  - eexists. reflexivity.
  - eexists. reflexivity.
  - destruct f; try discriminate; eexists; reflexivity.
  - eexists. reflexivity.
Qed.

Lemma first_bind_error_none (values : list json) (v : json) :
  first_bind_error values = None -> In v values -> bind_error v = None.
Proof.
  induction values as [ | w rest IH]; simpl; intros Hnone Hin.
  - contradiction.
  - destruct (bind_error w) eqn:Hw; [ discriminate | ].
    destruct Hin as [<- | Hin]; [ exact Hw | exact (IH Hnone Hin) ].
Qed.

Lemma find_none_all {A : Type} (p : A -> bool) (xs : list A) (x : A) :
  find p xs = None -> In x xs -> p x = false.
Proof. intros Hfind Hin. exact (find_none p xs Hfind x Hin). Qed.

Section TableFacts.

Variable R : Type.
Variable table : string.
Variable columns : R -> list (string * json).
Variable c : string.
Variable key : R -> json.

Hypothesis key_is_a_column : forall r, In (c, key r) (columns r).

Let unique : option (string * (R -> json)) := Some (c, key).

Lemma refuse_row_none (taken : list (option stored)) (r : R) :
  refuse_row table columns unique taken r = None ->
  (forall cv, In cv (columns r) ->
              bind_error (snd cv) = None /\ is_null (snd cv) = false)
  /\ existsb (same_stored (stored_of (key r))) taken = false.
Proof.
  unfold refuse_row, unique.
  destruct (first_bind_error _) eqn:Hbind; [ discriminate | ].
  destruct (find _ (columns r)) as [[c0 v0] | ] eqn:Hnull; [ discriminate | ].
  destruct (existsb _ taken) eqn:Htaken; [ discriminate | ].
  intros _. split; [ | reflexivity ].
  intros cv Hcv. split.
  - apply (first_bind_error_none _ _ Hbind). apply in_map. exact Hcv.
  - exact (find_none_all _ _ cv Hnull Hcv).
Qed.

Lemma accepted_key_is_new (old : list json) (r : R) :
  refuse_row table columns unique (map stored_of old) r = None ->
  ~ In (key r) old.
Proof.
  intros Hrow Hin. apply refuse_row_none in Hrow.
  destruct Hrow as [Hcols Hnew].
  destruct (Hcols _ (key_is_a_column r)) as [Hbind Hnull]. simpl in *.
  destruct (stored_of_bound _ Hbind Hnull) as [x Hx].
  assert (Htaken : existsb (same_stored (stored_of (key r)))
                           (map stored_of old) = true).
  { apply existsb_exists. exists (stored_of (key r)). split.
    - apply in_map. exact Hin.
    - rewrite Hx. apply same_stored_refl. }
  congruence.
Qed.

Lemma insert_rows_taken (old : list json) (r : R) :
  map stored_of old ++ key_of unique r = map stored_of (old ++ [key r]).
Proof. rewrite map_app. reflexivity. Qed.

Lemma insert_rows_unique :
  forall rows old,
    NoDup old ->
    insert_rows table columns unique (map stored_of old) rows = None ->
    NoDup (old ++ map key rows).
Proof.
  induction rows as [ | r rest IH]; cbn [insert_rows map]; intros old Hold Hrun.
  - rewrite app_nil_r. exact Hold.
  - destruct (refuse_row _ _ _ _ r) eqn:Hrow; [ discriminate | ].
    rewrite insert_rows_taken in Hrun.
    apply IH in Hrun.
    + rewrite <- app_assoc in Hrun. exact Hrun.
    + apply NoDup_snoc; [ exact Hold | ].
      exact (accepted_key_is_new _ _ Hrow).
Qed.

Lemma insert_rows_refuses_stored :
  forall rows old r,
    In r rows -> In (key r) old ->
    insert_rows table columns unique (map stored_of old) rows <> None.
Proof.
  induction rows as [ | r0 rest IH]; cbn [insert_rows]; intros old r Hin Hstored.
  - contradiction.
  - destruct (refuse_row _ _ _ _ r0) eqn:Hrow; [ discriminate | ].
    rewrite insert_rows_taken.
    destruct Hin as [-> | Hin].
    + exfalso. exact (accepted_key_is_new _ _ Hrow Hstored).
    + apply (IH _ r Hin). apply in_or_app. left. exact Hstored.
Qed.

Lemma insert_rows_refuses_repeated (rows : list R) (old : list json) :
  NoDup old ->
  ~ NoDup (map key rows) ->
  insert_rows table columns unique (map stored_of old) rows <> None.
Proof.
  intros Hold Hdup Hrun. apply Hdup.
  exact (NoDup_app_remove_l _ _ (insert_rows_unique _ Hold Hrun)).
Qed.

End TableFacts.

(** ** The tables of the schema *)

Lemma insert_chunk_bbq_refused (db : Database.t) (chunk : list BBQ.t) :
  chunk <> [] ->
  insert_chunk flush_bbq db chunk
  = (db, Failure (StatementError TypeError)).
Proof.
  destruct chunk as [ | entry rest]; [ congruence | ]. reflexivity.
Qed.

Lemma insert_chunk_bbq_same (db : Database.t) (chunk : list BBQ.t) :
  fst (insert_chunk flush_bbq db chunk) = db.
Proof. destruct chunk; reflexivity. Qed.

Lemma id_is_a_column (d : StereoSet.t) :
  In ("id", StereoSet.id d) (document_columns d).
Proof. left. reflexivity. Qed.

Lemma sentence_id_is_a_column (s : StereoSetSentence.t) :
  In ("sentence_id", StereoSetSentence.sentence_id s) (sentence_columns s).
Proof. right. left. reflexivity. Qed.

Lemma document_keys_app (db : Database.t) (chunk : list StereoSet.t) :
  document_keys
    (Database.mk (Database.bbq db) (Database.stereoset db ++ chunk))
  = document_keys db ++ map StereoSet.id chunk.
Proof. unfold document_keys. simpl. apply map_app. Qed.

Lemma sentence_keys_app (db : Database.t) (chunk : list StereoSet.t) :
  sentence_keys
    (Database.mk (Database.bbq db) (Database.stereoset db ++ chunk))
  = sentence_keys db
    ++ map StereoSetSentence.sentence_id
           (flat_map StereoSet.sentences chunk).
Proof.
  unfold sentence_keys, Database.stereosetsentence. simpl.
  rewrite flat_map_app, map_app. reflexivity.
Qed.

(** A flush of documents that succeeds has passed the three statements. *)
Lemma refuse_documents_none (db : Database.t) (chunk : list StereoSet.t) :
  refuse_documents db chunk = None ->
  insert_rows "stereoset" document_columns (Some ("id", StereoSet.id))
    (map stored_of (document_keys db)) chunk = None
  /\ insert_rows "stereosetsentence" sentence_columns
       (Some ("sentence_id", StereoSetSentence.sentence_id))
       (map stored_of (sentence_keys db))
       (flat_map StereoSet.sentences chunk) = None
  /\ insert_rows "stereosetlabel" label_columns None []
       (flat_map StereoSetSentence.labels
                 (flat_map StereoSet.sentences chunk)) = None.
Proof.
  unfold refuse_documents, document_keys, sentence_keys.
  destruct (insert_rows "stereoset" _ _ _ chunk); [ discriminate | ].
  destruct (insert_rows "stereosetsentence" _ _ _ _); [ discriminate | ].
  intros H. repeat split. exact H.
Qed.

Lemma insert_chunk_stereoset_cases (db : Database.t)
    (chunk : list StereoSet.t) :
  (refuse_documents db chunk = None
   /\ insert_chunk flush_stereoset db chunk
      = (Database.mk (Database.bbq db) (Database.stereoset db ++ chunk),
         Success tt))
  \/ (exists e,
         refuse_documents db chunk = Some e
         /\ insert_chunk flush_stereoset db chunk = (db, Failure e)).
Proof.
  unfold insert_chunk, flush_stereoset.
  destruct (refuse_documents db chunk) as [e | ].
  - right. exists e. split; reflexivity.
  - left. split; reflexivity.
Qed.

Lemma insert_chunk_stereoset_unique_ids (db : Database.t)
    (chunk : list StereoSet.t) :
  NoDup (document_keys db) ->
  NoDup (document_keys (fst (insert_chunk flush_stereoset db chunk))).
Proof.
  intros Hdb.
  destruct (insert_chunk_stereoset_cases db chunk)
    as [(Hnone & ->) | (e & _ & ->)]; simpl; [ | exact Hdb ].
  rewrite document_keys_app.
  apply refuse_documents_none in Hnone. destruct Hnone as (Hdocs & _).
  exact (insert_rows_unique _ _ _ _ id_is_a_column _ Hdb Hdocs).
Qed.

Lemma insert_chunk_stereoset_unique_sentences (db : Database.t)
    (chunk : list StereoSet.t) :
  NoDup (sentence_keys db) ->
  NoDup (sentence_keys (fst (insert_chunk flush_stereoset db chunk))).
Proof.
  intros Hdb.
  destruct (insert_chunk_stereoset_cases db chunk)
    as [(Hnone & ->) | (e & _ & ->)]; simpl; [ | exact Hdb ].
  rewrite sentence_keys_app.
  apply refuse_documents_none in Hnone. destruct Hnone as (_ & Hsent & _).
  exact (insert_rows_unique _ _ _ _ sentence_id_is_a_column _ Hdb Hsent).
Qed.

Lemma insert_chunk_stereoset_refused (db : Database.t)
    (chunk : list StereoSet.t) :
  refuse_documents db chunk <> None ->
  exists e, insert_chunk flush_stereoset db chunk = (db, Failure e).
Proof.
  intros Hsome.
  destruct (insert_chunk_stereoset_cases db chunk)
    as [(Hnone & _) | (e & _ & H)]; [ congruence | ].
  exists e. exact H.
Qed.

Lemma stored_document_is_refused (db : Database.t)
    (chunk : list StereoSet.t) (d : StereoSet.t) :
  In d chunk -> In (StereoSet.id d) (document_keys db) ->
  refuse_documents db chunk <> None.
Proof.
  intros Hd Hstored Hnone.
  apply refuse_documents_none in Hnone. destruct Hnone as (Hdocs & _).
  exact (insert_rows_refuses_stored _ _ _ _ id_is_a_column _ _ d Hd Hstored
           Hdocs).
Qed.

Lemma repeated_document_is_refused (db : Database.t)
    (chunk : list StereoSet.t) :
  NoDup (document_keys db) ->
  ~ NoDup (map StereoSet.id chunk) ->
  refuse_documents db chunk <> None.
Proof.
  intros Hdb Hdup Hnone.
  apply refuse_documents_none in Hnone. destruct Hnone as (Hdocs & _).
  exact (insert_rows_refuses_repeated _ _ _ _ id_is_a_column _ Hdb Hdup
           Hdocs).
Qed.

Lemma stored_sentence_is_refused (db : Database.t)
    (chunk : list StereoSet.t) (d : StereoSet.t) (s : StereoSetSentence.t) :
  In d chunk -> In s (StereoSet.sentences d) ->
  In (StereoSetSentence.sentence_id s) (sentence_keys db) ->
  refuse_documents db chunk <> None.
Proof.
  intros Hd Hs Hstored Hnone.
  apply refuse_documents_none in Hnone. destruct Hnone as (_ & Hsent & _).
  apply (insert_rows_refuses_stored _ _ _ _ sentence_id_is_a_column _ _ s)
    in Hsent; [ exact Hsent | | exact Hstored ].
  apply in_flat_map. exists d. split; assumption.
Qed.

Lemma repeated_sentence_is_refused (db : Database.t)
    (chunk : list StereoSet.t) :
  NoDup (sentence_keys db) ->
  ~ NoDup (map StereoSetSentence.sentence_id
               (flat_map StereoSet.sentences chunk)) ->
  refuse_documents db chunk <> None.
Proof.
  intros Hdb Hdup Hnone.
  apply refuse_documents_none in Hnone. destruct Hnone as (_ & Hsent & _).
  exact (insert_rows_refuses_repeated _ _ _ _ sentence_id_is_a_column _
           Hdb Hdup Hsent).
Qed.

(** ** BatchLoader *)

Section LoaderFacts.

Variables Session E : Type.
Variable flush : Session -> list E -> Session * option exn.

Lemma insert_chunk_failure (session partial : Session) (chunk : list E)
    (e : exn) :
  flush session chunk = (partial, Some e) ->
  insert_chunk flush session chunk = (session, Failure e).
Proof.
  intros H. unfold insert_chunk. rewrite H. reflexivity.
Qed.

Lemma gather_inserts_session (session : Session) (chunks : list (list E)) :
  fst (gather_inserts flush session chunks)
  = match chunks with
    | [] => session
    | first :: _ => fst (insert_chunk flush session first)
    end.
Proof.
  destruct chunks as [ | first others]; simpl; [ reflexivity | ].
  destruct (insert_chunk flush session first). reflexivity.
Qed.

(** The test [isinstance(r, Failure)] recognises a failed [Result]. *)
Lemma failed_Result_is_recognised {A : Type} (r : Result A) :
  derives_from_Failure (class_of_Result r) = is_failure r.
Proof. destruct r; reflexivity. Qed.

(** No awaited value is an instance of [Failure]. *)
Lemma failures_of_awaited {A : Type} (results : list (IOResult A)) :
  failures_of results = [].
Proof.
  unfold failures_of.
  induction results as [ | r rest IH]; simpl; [ reflexivity | ].
  destruct r; exact IH.
Qed.

Lemma load_entries_outcome (family source : string) (entries : list E)
    (st : Session * list log_record) :
  load_entries flush family source entries st
  = (fst (gather_inserts flush (fst st) (make_chunks chunk_size entries)),
     snd st ++ [(INFO, Loaded (List.length entries) family source)]).
Proof.
  unfold load_entries.
  destruct (gather_inserts flush (fst st) _) as [session' results].
  rewrite failures_of_awaited. reflexivity.
Qed.

End LoaderFacts.

(** ** Sources of at most one chunk *)

Lemma make_chunks_single {A : Type} (entries : list A) (c : nat) :
  0 < List.length entries <= c -> make_chunks c entries = [entries].
Proof.
  intros Hlen.
  rewrite make_chunks_spec by lia.
  assert (Hone : ceil_div (List.length entries) c = 1).
  { unfold ceil_div. symmetry.
    apply Nat.div_unique with (r := List.length entries - 1); lia. }
  rewrite Hone. simpl. unfold slice. simpl.
  rewrite Nat.sub_0_r, firstn_all2 by lia. reflexivity.
Qed.

Lemma make_chunks_members {A : Type} (entries : list A) (c : nat) :
  1 <= c ->
  Forall (fun chunk => chunk <> [] /\ forall x, In x chunk -> In x entries)
         (make_chunks c entries).
Proof.
  intros Hc. apply Forall_forall. intros chunk Hchunk. split.
  - apply In_nth with (d := []) in Hchunk.
    destruct Hchunk as (k & Hk & <-).
    rewrite make_chunks_nth by assumption.
    intros Hempty.
    apply (f_equal (@List.length A)) in Hempty.
    rewrite slice_length in Hempty by exact Hc.
    rewrite make_chunks_length in Hk by exact Hc.
    apply ceil_div_lt in Hk; [ | exact Hc ].
    simpl in Hempty. lia.
  - intros x Hx.
    rewrite <- (make_chunks_concat Hc entries).
    apply in_concat. exists chunk. split; assumption.
Qed.

(** ** Entries are parsed and not stored *)

Lemma parse_bbq_file_well_formed (cat : string) :
  forall lines,
    Forall (fun l => well_formed l = true) lines ->
    exists entries,
      parse_bbq_file lines cat = Success entries
      /\ Forall2 (fun l e =>
                    map BBQAnswer.index (BBQ.answers e) = [0; 1; 2]
                    /\ BBQ.example_id e = line_example_id l
                    /\ is_int (BBQ.example_id e) = true)
                 lines entries.
Proof.
  unfold parse_bbq_file.
  induction lines as [ | l rest IH]; intros Hwf.
  - exists []. split; [ reflexivity | constructor ].
  - inversion Hwf as [ | ? ? Hl Hrest]; subst.
    destruct (parse_bbq_line_well_formed cat l Hl) as (e & He & Hshape).
    destruct (IH Hrest) as (es & Hes & Hall).
    exists (e :: es). simpl. rewrite He, Hes. simpl.
    split; [ reflexivity | constructor; assumption ].
Qed.

Lemma gather_bbq_same (db : Database.t) (chunks : list (list BBQ.t)) :
  fst (gather_inserts flush_bbq db chunks) = db.
Proof.
  rewrite gather_inserts_session.
  destruct chunks as [ | first others]; [ reflexivity | ].
  apply insert_chunk_bbq_same.
Qed.

Lemma load_entries_bbq (db : Database.t) (log : list log_record)
    (family source : string) (entries : list BBQ.t) :
  load_entries flush_bbq family source entries (db, log)
  = (db, log ++ [(INFO, Loaded (List.length entries) family source)]).
Proof.
  rewrite load_entries_outcome. cbn [fst snd].
  rewrite gather_bbq_same. reflexivity.
Qed.

(** C1, on the code: a flat-category file of N well-formed lines parses
    to N entries, each with three answers of indices 0, 1, 2, and an empty
    file to none.  None of them is stored: the INSERT of an entry raises
    while its parameters are prepared, because the [JSON] column is handed
    the [AdditionalMetadata] object, so every chunk load of entries fails
    and is rolled back; the tables are left as they were and the log still
    says [Loaded N]. *)
Theorem bbq_entries_are_parsed_and_not_stored
    (files : string -> option (list line)) (cat : string)
    (lines : list line) (db : Database.t) (log : list log_record) :
  files (cat ++ ".jsonl")%string = Some lines ->
  Forall (fun l => well_formed l = true) lines ->
  exists entries,
    parse_bbq_file lines cat = Success entries
    /\ List.length entries = List.length lines
    /\ Forall (fun e => map BBQAnswer.index (BBQ.answers e) = [0; 1; 2])
              entries
    /\ (forall chunk,
          chunk <> [] ->
          exists e, insert_chunk flush_bbq db chunk = (db, Failure e))
    /\ load_bbq_category flush_bbq files (db, log) cat
       = (db, log ++ [(INFO, Loaded (List.length lines) "BBQ" cat)]).
Proof.
  intros Hfile Hwf.
  destruct (parse_bbq_file_well_formed cat Hwf) as (entries & Hparse & Hall).
  assert (Hlen : List.length entries = List.length lines).
  { symmetry. exact (Forall2_length Hall). }
  exists entries.
  split; [ exact Hparse | ].
  split; [ exact Hlen | ].
  split.
  { clear -Hall. induction Hall as [ | l e ls es (H & _) _ IH];
      constructor; assumption. }
  split.
  { intros chunk Hne. eexists. apply insert_chunk_bbq_refused. exact Hne. }
  unfold load_bbq_category. rewrite Hfile, Hparse, load_entries_bbq, Hlen.
  reflexivity.
Qed.

Lemma bbq_entries_are_parsed_and_not_stored_witness :
  exists entries,
    parse_bbq_file [sample_line 1; sample_line 2] "Age" = Success entries
    /\ List.length entries = 2
    /\ Forall (fun e => map BBQAnswer.index (BBQ.answers e) = [0; 1; 2])
              entries
    /\ (forall chunk,
          chunk <> [] ->
          exists e,
            insert_chunk flush_bbq Database.empty chunk
            = (Database.empty, Failure e))
    /\ load_bbq_category flush_bbq
         (only_file "Age.jsonl" [sample_line 1; sample_line 2])
         (Database.empty, []) "Age"
       = (Database.empty, [] ++ [(INFO, Loaded 2 "BBQ" "Age")]).
Proof.
  apply (@bbq_entries_are_parsed_and_not_stored
           (only_file "Age.jsonl" [sample_line 1; sample_line 2]) "Age"
           [sample_line 1; sample_line 2] Database.empty []).
  - reflexivity.
  - repeat constructor.
Defined.

(** ** Duplicate identifiers *)

(** C3, amended to the chunk-scoped transaction of [insert_chunk]: no
    chunk load ever stores an [example_id] or a [sentence_id] twice.  A
    chunk that holds an identifier which is already stored, or holds one
    identifier twice, fails as a whole with a chunk-scoped failure and
    leaves the tables as they were, so of two entities with one identifier
    in the same chunk neither is loaded.  Of two sentences with one
    [sentence_id] in different chunks, once the chunk of the first is
    stored the chunk of the second fails: one success and one chunk-scoped
    failure, as in the run over two type files that share a
    [sentence_id].  The file of three lines whose second line repeats
    [example_id] 5 is a single chunk: its load fails and no entry and no
    answer is stored. *)
Theorem duplicate_ids_fail_the_chunk (db : Database.t) :
  NoDup (bbq_keys db) ->
  NoDup (sentence_keys db) ->
  (forall chunk,
      NoDup (bbq_keys (fst (insert_chunk flush_bbq db chunk))))
  /\ (forall chunk,
      NoDup (sentence_keys (fst (insert_chunk flush_stereoset db chunk))))
  /\ (forall chunk e,
      In e chunk -> In (BBQ.example_id e) (bbq_keys db) ->
      exists err, insert_chunk flush_bbq db chunk = (db, Failure err))
  /\ (forall chunk,
      ~ NoDup (map BBQ.example_id chunk) ->
      exists err, insert_chunk flush_bbq db chunk = (db, Failure err))
  /\ (forall chunk d s,
      In d chunk -> In s (StereoSet.sentences d) ->
      In (StereoSetSentence.sentence_id s) (sentence_keys db) ->
      exists err, insert_chunk flush_stereoset db chunk = (db, Failure err))
  /\ (forall chunk,
      ~ NoDup (map StereoSetSentence.sentence_id
                   (flat_map StereoSet.sentences chunk)) ->
      exists err, insert_chunk flush_stereoset db chunk = (db, Failure err))
  /\ (forall first second db1 d s,
      insert_chunk flush_stereoset db first = (db1, Success tt) ->
      In d second -> In s (StereoSet.sentences d) ->
      In (StereoSetSentence.sentence_id s)
         (map StereoSetSentence.sentence_id
              (flat_map StereoSet.sentences first)) ->
      sentence_keys db1
      = sentence_keys db
        ++ map StereoSetSentence.sentence_id
               (flat_map StereoSet.sentences first)
      /\ exists err,
           insert_chunk flush_stereoset db1 second = (db1, Failure err))
  /\ (exists stored log,
      shared_sentence_run = Success (stored, log)
      /\ document_keys stored = [JStr "d1"]
      /\ sentence_keys stored = [JStr "s1"; JStr "s2"])
  /\ make_chunks chunk_size duplicate_chunk = [duplicate_chunk]
  /\ (exists err,
      insert_chunk flush_bbq Database.empty duplicate_chunk
      = (Database.empty, Failure err))
  /\ loaded_counts duplicate_run = Some (0, 0).
Proof.
  intros Hbbq Hsent.
  split.
  { intros chunk. rewrite insert_chunk_bbq_same. exact Hbbq. }
  split.
  { intros chunk. apply insert_chunk_stereoset_unique_sentences.
    exact Hsent. }
  split.
  { intros chunk e He _. eexists. apply insert_chunk_bbq_refused.
    intros ->. exact He. }
  split.
  { intros chunk Hdup. eexists. apply insert_chunk_bbq_refused.
    intros ->. apply Hdup. constructor. }
  split.
  { intros chunk d s Hd Hs Hstored.
    apply insert_chunk_stereoset_refused.
    exact (stored_sentence_is_refused db chunk d s Hd Hs Hstored). }
  split.
  { intros chunk Hdup.
    apply insert_chunk_stereoset_refused.
    exact (@repeated_sentence_is_refused db chunk Hsent Hdup). }
  split.
  { intros first second db1 d s Hfirst Hd Hs Hshared.
    destruct (insert_chunk_stereoset_cases db first)
      as [(_ & H) | (e & _ & H)]; rewrite H in Hfirst;
      [ | discriminate ].
    injection Hfirst as <-.
    split; [ apply sentence_keys_app | ].
    apply insert_chunk_stereoset_refused.
    apply (stored_sentence_is_refused _ second d s Hd Hs).
    rewrite sentence_keys_app. apply in_or_app. right. exact Hshared. }
  split.
  { eexists. eexists. split; [ vm_compute; reflexivity | ].
    split; reflexivity. }
  split; [ reflexivity | ].
  split; [ eexists; vm_compute; reflexivity | ].
  vm_compute. reflexivity.
Qed.

Lemma duplicate_ids_fail_the_chunk_witness :
  exists err,
    insert_chunk flush_stereoset Database.empty repeated_sentence_chunk
    = (Database.empty, Failure err).
Proof.
  destruct (@duplicate_ids_fail_the_chunk Database.empty)
    as (_ & _ & _ & _ & _ & Hrepeated & _).
  - simpl. constructor.
  - simpl. constructor.
  - apply Hrepeated. vm_compute. intros Hnd.
    inversion Hnd as [ | ? ? Hfirst _]. apply Hfirst. left. reflexivity.
Defined.

(** C3, as stated, fails on the file of three lines whose second line
    repeats [example_id] 5: the run does not load 2 entries and 6
    answers. *)
Lemma duplicate_file_does_not_load_two :
  loaded_counts duplicate_run <> Some (2, 6).
Proof.
  vm_compute. discriminate.
Qed.

(** C10: [StereoSet.id] is the identifier read from the source object and
    is the primary key.  No chunk load ever stores a document identifier
    twice; a chunk holding a document whose identifier is already stored,
    or holding one identifier twice, fails and leaves the tables as they
    were.  When the same document identifier is in both type files, the
    document of the first file is stored and the chunk load of the second
    file fails: the table holds the document once. *)
Theorem document_ids_are_unique (db : Database.t) :
  NoDup (document_keys db) ->
  (forall entry_type raw d,
      build_document entry_type raw = Success d ->
      getitem raw "id" = Success (StereoSet.id d))
  /\ (forall chunk,
      NoDup (document_keys (fst (insert_chunk flush_stereoset db chunk))))
  /\ (forall chunk d,
      In d chunk -> In (StereoSet.id d) (document_keys db) ->
      exists err, insert_chunk flush_stereoset db chunk = (db, Failure err))
  /\ (forall chunk,
      ~ NoDup (map StereoSet.id chunk) ->
      exists err, insert_chunk flush_stereoset db chunk = (db, Failure err))
  /\ (exists stored log first,
      shared_document_run = Success (stored, log)
      /\ Database.stereoset stored = [first]
      /\ StereoSet.id first = JStr "d1"
      /\ StereoSet.type first = "intersentence"
      /\ parse_stereoset_file shared_document_second "intrasentence"
         = Success shared_document_chunk
      /\ exists err,
           insert_chunk flush_stereoset stored shared_document_chunk
           = (stored, Failure err)).
Proof.
  intros Hdocs.
  split.
  { intros entry_type raw d. unfold build_document.
    destruct (getitem raw "sentences"); [ | discriminate ]. cbn [bind].
    destruct (iterate _); [ | discriminate ]. cbn [bind].
    destruct (for_each build_sentence _); [ | discriminate ]. cbn [bind].
    destruct (getitem raw "id"); [ | discriminate ]. cbn [bind].
    destruct (getitem raw "target"); [ | discriminate ]. cbn [bind].
    destruct (getitem raw "bias_type"); [ | discriminate ]. cbn [bind].
    destruct (getitem raw "context"); [ | discriminate ]. cbn [bind].
    intros H. injection H as <-. reflexivity. }
  split.
  { intros chunk. apply insert_chunk_stereoset_unique_ids. exact Hdocs. }
  split.
  { intros chunk d Hd Hstored.
    apply insert_chunk_stereoset_refused.
    exact (stored_document_is_refused db chunk d Hd Hstored). }
  split.
  { intros chunk Hdup.
    apply insert_chunk_stereoset_refused.
    exact (@repeated_document_is_refused db chunk Hdocs Hdup). }
  eexists. eexists. eexists. split; [ vm_compute; reflexivity | ].
  split; [ reflexivity | ]. split; [ reflexivity | ].
  split; [ reflexivity | ].
  split; [ vm_compute; reflexivity | ].
  eexists. vm_compute. reflexivity.
Qed.

Lemma document_ids_are_unique_witness :
  exists err,
    insert_chunk flush_stereoset Database.empty repeated_documents
    = (Database.empty, Failure err).
Proof.
  destruct (@document_ids_are_unique Database.empty)
    as (_ & _ & _ & Hrepeated & _).
  - simpl. constructor.
  - apply Hrepeated. vm_compute. intros Hnd.
    inversion Hnd as [ | ? ? Hfirst _]. apply Hfirst. left. reflexivity.
Defined.

(** ** Chunk loads that share the session *)

(** C4, on the code: [insert_chunk] itself does what the claim says, when
    flushing a chunk raises [e] it returns the session as it was at the
    savepoint together with [Failure e].  The other chunks of the source
    are not loaded unaffected, though: the chunk loads of a source share
    the session, only the first of them gets through, and when it fails
    the source stores nothing.  In the file of 1001 documents whose first
    chunk holds the identifier d1 twice, the second chunk is a single
    document that loads when it is submitted alone; the run stores no
    document. *)
Theorem failed_chunk_is_not_isolated
    (Session E : Type) (flush : Session -> list E -> Session * option exn)
    (session partial : Session) (first : list E) (others : list (list E))
    (e : exn) :
  flush session first = (partial, Some e) ->
  insert_chunk flush session first = (session, Failure e)
  /\ gather_inserts flush session (first :: others)
     = (session,
        IOFailure e :: map (fun _ => IOFailure InvalidRequestError) others)
  /\ (forall family source entries log,
        make_chunks chunk_size entries = first :: others ->
        fst (load_entries flush family source entries (session, log))
        = session)
  /\ make_chunks chunk_size blocked_entries
     = [ firstn 1000 blocked_entries; skipn 1000 blocked_entries ]
  /\ (exists err,
        insert_chunk flush_stereoset Database.empty
          (firstn 1000 blocked_entries)
        = (Database.empty, Failure err))
  /\ insert_chunk flush_stereoset Database.empty (skipn 1000 blocked_entries)
     = (Database.mk [] (skipn 1000 blocked_entries), Success tt)
  /\ List.length (skipn 1000 blocked_entries) = 1
  /\ tables blocked_run = Some Database.empty.
Proof.
  intros Hfail.
  pose proof (insert_chunk_failure flush _ _ Hfail) as Hchunk.
  assert (Hrun : gather_inserts flush session (first :: others)
     = (session,
        IOFailure e :: map (fun _ => IOFailure InvalidRequestError) others)).
  { simpl. rewrite Hchunk. reflexivity. }
  split; [ exact Hchunk | ].
  split; [ exact Hrun | ].
  split.
  { intros family source entries log Hchunks.
    rewrite load_entries_outcome. cbn [fst snd].
    rewrite Hchunks, Hrun. reflexivity. }
  split; [ vm_compute; reflexivity | ].
  split; [ eexists; vm_compute; reflexivity | ].
  split; [ vm_compute; reflexivity | ].
  split; vm_compute; reflexivity.
Qed.

Lemma failed_chunk_is_not_isolated_witness :
  gather_inserts flush_stereoset Database.empty
    [ repeated_documents; shared_document_chunk ]
  = (Database.empty,
     [ IOFailure (IntegrityError "stereoset.id" (JStr "d1"));
       IOFailure InvalidRequestError ]).
Proof.
  apply (@failed_chunk_is_not_isolated Database.t StereoSet.t
           flush_stereoset Database.empty Database.empty
           repeated_documents [ shared_document_chunk ]
           (IntegrityError "stereoset.id" (JStr "d1"))).
  vm_compute. reflexivity.
Defined.

(** ** Malformed lines *)

Lemma getitem_not_lacks (o : json) (key : string) (v : json) :
  getitem o key = Success v -> lacks o key = false.
Proof.
  destruct o; simpl; try reflexivity.
  destruct (dict_lookup fields key); [ reflexivity | discriminate ].
Qed.

Lemma build_answer_inv (data : json) (i : nat) (a : BBQAnswer.t) :
  build_answer data i = Success a ->
  exists txt info pair,
    getitem data (ans_key i) = Success txt
    /\ getitem data "answer_info" = Success info
    /\ getitem info (ans_key i) = Success pair.
Proof.
  unfold build_answer. intros H.
  destruct (getitem data (ans_key i)) as [txt | ] eqn:Htxt;
    [ | discriminate ].
  cbn [bind] in H.
  destruct (getitem data "answer_info") as [info | ] eqn:Hinfo;
    [ | discriminate ].
  cbn [bind] in H.
  destruct (getitem info (ans_key i)) as [pair | ] eqn:Hpair;
    [ | discriminate ].
  exists txt, info, pair. repeat split; assumption.
Qed.

Lemma str_field_not_lacks (fields : list (string * json)) (name s : string) :
  str_field fields name = Success s -> lacks (JObj fields) name = false.
Proof.
  unfold str_field. simpl.
  destruct (dict_lookup fields name); [ reflexivity | discriminate ].
Qed.

Lemma str_list_field_not_lacks (fields : list (string * json))
    (name : string) (l : list string) :
  str_list_field fields name = Success l -> lacks (JObj fields) name = false.
Proof.
  unfold str_list_field. simpl.
  destruct (dict_lookup fields name); [ reflexivity | discriminate ].
Qed.

Lemma new_AdditionalMetadata_inv (fields : list (string * json))
    (m : AdditionalMetadata.t) :
  new_AdditionalMetadata fields = Success m ->
  existsb (lacks (JObj fields)) metadata_fields = false.
Proof.
  unfold new_AdditionalMetadata. intros H.
  destruct (str_field fields "subcategory") eqn:H1; [ | discriminate ].
  cbn [bind] in H.
  destruct (str_list_field fields "stereotyped_groups") eqn:H2;
    [ | discriminate ].
  cbn [bind] in H.
  destruct (str_field fields "version") eqn:H3; [ | discriminate ].
  cbn [bind] in H.
  destruct (str_field fields "source") eqn:H4; [ | discriminate ].
  unfold metadata_fields. cbn [existsb].
  rewrite (str_field_not_lacks _ _ H1), (str_list_field_not_lacks _ _ H2),
    (str_field_not_lacks _ _ H3), (str_field_not_lacks _ _ H4).
  reflexivity.
Qed.

Lemma answers_inv (data : json) (answers : list BBQAnswer.t) :
  for_each (build_answer data) (seq 0 3) = Success answers ->
  exists info,
    getitem data "answer_info" = Success info
    /\ existsb (lacks info) (map ans_key (seq 0 3)) = false.
Proof.
  cbn [seq for_each]. intros H.
  destruct (build_answer data 0) as [a0 | ] eqn:H0; [ | discriminate ].
  destruct (build_answer data 1) as [a1 | ] eqn:H1; [ | discriminate ].
  destruct (build_answer data 2) as [a2 | ] eqn:H2; [ | discriminate ].
  apply build_answer_inv in H0, H1, H2.
  destruct H0 as (t0 & info & p0 & _ & Hinfo & Hp0).
  destruct H1 as (t1 & info1 & p1 & _ & Hinfo1 & Hp1).
  destruct H2 as (t2 & info2 & p2 & _ & Hinfo2 & Hp2).
  rewrite Hinfo in Hinfo1, Hinfo2.
  injection Hinfo1 as <-. injection Hinfo2 as <-.
  exists info. split; [ exact Hinfo | ].
  cbn [map seq existsb].
  rewrite (getitem_not_lacks _ _ Hp0), (getitem_not_lacks _ _ Hp1),
    (getitem_not_lacks _ _ Hp2).
  reflexivity.
Qed.

(** Next step of a parse that is known to succeed. *)
Ltac parse_step H :=
  match type of H with
  | bind ?r _ = Success _ =>
      let E := fresh "Hstep" in
      destruct r eqn:E; cbn [bind] in H; [ | discriminate H ]
  end.

Lemma parse_bbq_line_inv (cat : string) (l : line) (entry : BBQ.t) :
  parse_bbq_line cat l = Success entry -> malformed l = false.
Proof.
  unfold parse_bbq_line. intros H.
  destruct l as [data | ]; [ | discriminate ].
  cbn [json_loads bind] in H.
  destruct data as [ | | | | | | fields]; try discriminate.
  cbn [setitem bind] in H.
  destruct (for_each _ (seq 0 3)) as [answers | ] eqn:Hanswers;
    [ | discriminate ].
  cbn [bind] in H.
  apply answers_inv in Hanswers. destruct Hanswers as (info & Hinfo & Hkeys).
  destruct (getitem _ "additional_metadata") as [meta | ] eqn:Hmeta;
    [ | discriminate ].
  cbn [bind] in H.
  destruct (kwargs meta) as [kw | ] eqn:Hkw; [ | discriminate ].
  cbn [bind] in H.
  destruct (new_AdditionalMetadata kw) as [m | ] eqn:Hm; [ | discriminate ].
  cbn [bind] in H.
  do 11 parse_step H.
  rewrite getitem_beside_category in * by discriminate.
  destruct meta as [ | | | | | | kw']; try discriminate.
  injection Hkw as <-.
  apply new_AdditionalMetadata_inv in Hm.
  unfold malformed, lacks_under.
  rewrite Hinfo, Hmeta, Hm, Hkeys.
  cbn [existsb required_fields].
  repeat match goal with
  | Hg : getitem _ _ = Success _ |- _ =>
      rewrite (getitem_not_lacks _ _ Hg); clear Hg
  end.
  reflexivity.
Qed.

(** C5: a file with a malformed line makes [parse_bbq_file] return a
    [Failure]; the loader then logs the parse failure, leaves the session
    as it was (no entity of the source is loaded) and goes on with the
    next category. *)
Theorem malformed_line_fails_the_file
    (Session : Type)
    (flush : Session -> list BBQ.t -> Session * option exn)
    (files : string -> option (list line)) (cat : string)
    (lines : list line) (l : line) :
  files (cat ++ ".jsonl")%string = Some lines ->
  In l lines ->
  malformed l = true ->
  exists e,
    parse_bbq_file lines cat = Failure e
    /\ (forall st,
          load_bbq_category flush files st cat
          = (fst st, snd st ++ [(ERROR, Failed_parsing "BBQ" cat e)]))
    /\ (forall st rest,
          fold_left (load_bbq_category flush files) (cat :: rest) st
          = fold_left (load_bbq_category flush files) rest
              (fst st, snd st ++ [(ERROR, Failed_parsing "BBQ" cat e)])).
Proof.
  intros Hfile Hin Hbad.
  assert (Hline : exists e, parse_bbq_line cat l = Failure e).
  { destruct (parse_bbq_line cat l) as [entry | e] eqn:Hparse.
    - apply parse_bbq_line_inv in Hparse. congruence.
    - exists e. reflexivity. }
  destruct Hline as [e0 He0].
  destruct (for_each_failure (parse_bbq_line cat) lines l Hin He0)
    as [e He].
  exists e.
  assert (Hstep : forall st,
             load_bbq_category flush files st cat
             = (fst st, snd st ++ [(ERROR, Failed_parsing "BBQ" cat e)])).
  { intros st. unfold load_bbq_category, parse_bbq_file.
    rewrite Hfile, He. reflexivity. }
  split; [ exact He | ].
  split; [ exact Hstep | ].
  intros st rest. simpl. rewrite Hstep. reflexivity.
Qed.

Lemma malformed_line_fails_the_file_witness :
  exists e,
    parse_bbq_file broken_file "Age" = Failure e
    /\ (forall st,
          load_bbq_category flush_bbq (only_file "Age.jsonl" broken_file)
            st "Age"
          = (fst st, snd st ++ [(ERROR, Failed_parsing "BBQ" "Age" e)]))
    /\ (forall st rest,
          fold_left
            (load_bbq_category flush_bbq (only_file "Age.jsonl" broken_file))
            ("Age" :: rest) st
          = fold_left
              (load_bbq_category flush_bbq
                 (only_file "Age.jsonl" broken_file))
              rest
              (fst st, snd st ++ [(ERROR, Failed_parsing "BBQ" "Age" e)])).
Proof.
  apply (@malformed_line_fails_the_file Database.t flush_bbq
           (only_file "Age.jsonl" broken_file) "Age" broken_file None).
  - reflexivity.
  - simpl. right. left. reflexivity.
  - reflexivity.
Defined.

(** ** Orchestrator *)

Lemma errors_app (log log' : list log_record) :
  errors (log ++ log') = errors log ++ errors log'.
Proof. unfold errors. apply filter_app. Qed.

(** C6: when the directory of a family is absent the load raises
    [FileNotFoundError] and nothing else happens.  When the directory
    exists the load returns; a source whose file is absent leaves the
    session as it was, adds one [WARNING] record and no [ERROR] record,
    and the loop goes on with the sources that follow. *)
Theorem missing_directory_is_fatal_missing_file_is_skipped
    (Session : Type)
    (flush_bbq : Session -> list BBQ.t -> Session * option exn)
    (flush_stereoset : Session -> list StereoSet.t -> Session * option exn)
    (session : Session) (base_path : base_dir) :
  (bbq_dir base_path = None ->
     load_bbq flush_bbq session base_path
     = Failure (FileNotFoundError "bbq"))
  /\ (stereoset_dir base_path = None ->
     load_stereoset flush_stereoset session base_path
     = Failure (FileNotFoundError "stereoset"))
  /\ (forall files,
     bbq_dir base_path = Some files ->
     load_bbq flush_bbq session base_path
     = Success (fold_left (load_bbq_category flush_bbq files) bbq_categories
                          (session, [])))
  /\ (forall files,
     stereoset_dir base_path = Some files ->
     load_stereoset flush_stereoset session base_path
     = Success (fold_left (load_stereoset_file flush_stereoset files)
                          stereoset_files (session, [])))
  /\ (forall files cat st rest,
     files (cat ++ ".jsonl")%string = None ->
     let skipped :=
       (fst st,
        snd st
        ++ [(WARNING,
             Skipping_missing_file ("bbq/" ++ cat ++ ".jsonl")%string)]) in
     load_bbq_category flush_bbq files st cat = skipped
     /\ errors (snd skipped) = errors (snd st)
     /\ fold_left (load_bbq_category flush_bbq files) (cat :: rest) st
        = fold_left (load_bbq_category flush_bbq files) rest skipped)
  /\ (forall files filename entry_type st rest,
     files filename = None ->
     let skipped :=
       (fst st,
        snd st
        ++ [(WARNING,
             Skipping_missing_file ("stereoset/" ++ filename)%string)]) in
     load_stereoset_file flush_stereoset files st (filename, entry_type)
     = skipped
     /\ errors (snd skipped) = errors (snd st)
     /\ fold_left (load_stereoset_file flush_stereoset files)
                  ((filename, entry_type) :: rest) st
        = fold_left (load_stereoset_file flush_stereoset files) rest
                    skipped).
Proof.
  split; [ intros H; unfold load_bbq; rewrite H; reflexivity | ].
  split; [ intros H; unfold load_stereoset; rewrite H; reflexivity | ].
  split; [ intros files H; unfold load_bbq; rewrite H; reflexivity | ].
  split; [ intros files H; unfold load_stereoset; rewrite H; reflexivity | ].
  split.
  - intros files cat st rest Hfile skipped.
    assert (Hstep : load_bbq_category flush_bbq files st cat = skipped).
    { unfold load_bbq_category. rewrite Hfile. reflexivity. }
    split; [ exact Hstep | ].
    split.
    + subst skipped. simpl. rewrite errors_app. simpl. apply app_nil_r.
    + cbn [fold_left]. rewrite Hstep. reflexivity.
  - intros files filename entry_type st rest Hfile skipped.
    assert (Hstep : load_stereoset_file flush_stereoset files st
                      (filename, entry_type) = skipped).
    { unfold load_stereoset_file. rewrite Hfile. reflexivity. }
    split; [ exact Hstep | ].
    split.
    + subst skipped. simpl. rewrite errors_app. simpl. apply app_nil_r.
    + cbn [fold_left]. rewrite Hstep. reflexivity.
Qed.

Lemma missing_directory_is_fatal_missing_file_is_skipped_witness :
  load_stereoset flush_stereoset Database.empty duplicate_base
  = Failure (FileNotFoundError "stereoset")
  /\ load_bbq_category flush_bbq (only_file "Age.jsonl" duplicate_file)
       (Database.empty, []) "SES"
     = (Database.empty,
        [(WARNING, Skipping_missing_file "bbq/SES.jsonl")]).
Proof.
  destruct (@missing_directory_is_fatal_missing_file_is_skipped
              Database.t flush_bbq flush_stereoset Database.empty
              duplicate_base) as (_ & Hdir & _ & _ & Hfile & _).
  split.
  - apply Hdir. reflexivity.
  - apply (Hfile (only_file "Age.jsonl" duplicate_file) "SES"
                 (Database.empty, []) []).
    reflexivity.
Defined.

(** C8, on the code: the loaders look for failed chunk loads with
    [isinstance(r, Failure)], and no awaited value is an instance of
    [Failure]; so whatever the chunk loads returned, no chunk failure is
    logged, and the record of the source is [Loaded N] with N the number
    of parsed entities, not the number of stored ones.  In the run over
    the file of three lines whose chunk load fails, nothing is stored, the
    log has no error and reports 3 loaded entries; in the run over two
    type files with the same document, the chunk load of the second file
    fails and the log reports it as loaded. *)
Theorem chunk_failures_are_not_reported
    (Session E : Type) (flush : Session -> list E -> Session * option exn)
    (family source : string) (entries : list E)
    (session : Session) (log : list log_record) :
  failures_of
    (snd (gather_inserts flush session (make_chunks chunk_size entries)))
  = []
  /\ snd (load_entries flush family source entries (session, log))
     = log ++ [(INFO, Loaded (List.length entries) family source)]
  /\ (exists err,
        snd (gather_inserts flush_bbq Database.empty
               (make_chunks chunk_size duplicate_chunk))
        = [IOFailure err])
  /\ loaded_counts duplicate_run = Some (0, 0)
  /\ errors (run_log duplicate_run) = []
  /\ reports (run_log duplicate_run) = [(INFO, Loaded 3 "BBQ" "Age")]
  /\ errors (run_log shared_document_run) = []
  /\ reports (run_log shared_document_run)
     = [ (INFO, Loaded 1 "StereoSet" "intersentence.json");
         (INFO, Loaded 1 "StereoSet" "intrasentence.json") ].
Proof.
  split; [ apply failures_of_awaited | ].
  split; [ rewrite load_entries_outcome; reflexivity | ].
  split; [ eexists; vm_compute; reflexivity | ].
  repeat split; vm_compute; reflexivity.
Qed.

(** ** Nested-document parser: locating the documents *)

Lemma locate_documents_object (fields : list (string * json))
    (entry_type : string) :
  locate_documents (JObj fields) entry_type
  = Success
      (py_or (value_or_none (dict_lookup fields entry_type))
         (py_or (value_or_none (dict_lookup fields (capitalize entry_type)))
                (JObj fields))).
Proof.
  unfold locate_documents, get, get_default, py_or.
  destruct (dict_lookup fields entry_type) as [v | ]; cbn [bind value_or_none].
  - destruct (truthy v); [ reflexivity | ].
    destruct (dict_lookup fields (capitalize entry_type)); reflexivity.
  - cbn [truthy].
    destruct (dict_lookup fields (capitalize entry_type)); reflexivity.
Qed.

Lemma locate_documents_neither_key (fields : list (string * json))
    (entry_type : string) :
  dict_lookup fields entry_type = None ->
  dict_lookup fields (capitalize entry_type) = None ->
  locate_documents (JObj fields) entry_type = Success (JObj fields).
Proof.
  intros Hlower Hupper.
  rewrite locate_documents_object, Hlower, Hupper. reflexivity.
Qed.

(** C7 on a data section that is an array: [data_section] hands the
    array on, whether it is the whole file or sits under ["data"], and
    [locate_documents] then raises [AttributeError] on its [get]; the
    parse fails instead of taking the array as the documents. *)
Theorem array_data_section_is_rejected (docs : list json)
    (entry_type : string) :
  data_section (JArr docs) = Success (JArr docs)
  /\ data_section (JObj [("data", JArr docs)]) = Success (JArr docs)
  /\ locate_documents (JArr docs) entry_type = Failure AttributeError
  /\ parse_stereoset_file (Some (JArr docs)) entry_type
     = Failure AttributeError
  /\ parse_stereoset_file (Some (JObj [("data", JArr docs)])) entry_type
     = Failure AttributeError.
Proof.
  repeat split; reflexivity.
Qed.

Lemma string_chars_nonempty (s : string) :
  String.eqb s "" = false -> string_chars s <> [].
Proof.
  destruct s; simpl; [ discriminate | intros _; discriminate ].
Qed.

Lemma truthy_iterate_nonempty (o : json) (items : list json) :
  truthy o = true -> iterate o = Success items -> items <> [].
Proof.
  destruct o as [ | b | z | f | s | xs | fields]; simpl;
    intros Ht Hit; try discriminate.
  - injection Hit as <-. apply string_chars_nonempty.
    apply negb_true_iff. exact Ht.
  - injection Hit as <-. destruct xs; [ discriminate Ht | discriminate ].
  - injection Hit as <-. destruct fields; [ discriminate Ht | discriminate ].
Qed.

Lemma truthy_never_parses_to_nothing {B : Type} (o : json)
    (build : json -> Result B) :
  truthy o = true ->
  (documents <- iterate o ;; for_each build documents) <> Success [].
Proof.
  intros Ht. destruct (iterate o) as [items | e] eqn:Hit; cbn [bind].
  - intros Hparse. apply for_each_length in Hparse.
    apply (truthy_iterate_nonempty _ Ht Hit).
    destruct items; [ reflexivity | discriminate ].
  - discriminate.
Qed.

(** C9: when the data section holds the discriminator key with a falsy
    value (an empty array, say), the documents are not taken from it: the
    parser takes the value under the capitalized key when that is truthy
    and the whole data section otherwise, and the parse never returns the
    empty list of documents. *)
Theorem falsy_discriminator_falls_back (raw : json)
    (fields : list (string * json)) (entry_type : string) (v : json) :
  data_section raw = Success (JObj fields) ->
  dict_lookup fields entry_type = Some v ->
  truthy v = false ->
  locate_documents (JObj fields) entry_type
  = Success (py_or (value_or_none
                      (dict_lookup fields (capitalize entry_type)))
                   (JObj fields))
  /\ (forall c,
        dict_lookup fields (capitalize entry_type) = Some c ->
        truthy c = true ->
        locate_documents (JObj fields) entry_type = Success c)
  /\ (truthy (value_or_none (dict_lookup fields (capitalize entry_type)))
      = false ->
      locate_documents (JObj fields) entry_type = Success (JObj fields))
  /\ parse_stereoset_file (Some raw) entry_type <> Success [].
Proof.
  intros Hsection Hkey Hfalsy.
  assert (Hlocate : locate_documents (JObj fields) entry_type
            = Success (py_or (value_or_none
                                (dict_lookup fields (capitalize entry_type)))
                             (JObj fields))).
  { rewrite locate_documents_object, Hkey. cbn [value_or_none].
    unfold py_or at 1. rewrite Hfalsy. reflexivity. }
  split; [ exact Hlocate | ].
  split.
  { intros c Hc Htrue. rewrite Hlocate, Hc. cbn [value_or_none].
    unfold py_or. rewrite Htrue. reflexivity. }
  split.
  { intros Hfalse. rewrite Hlocate. unfold py_or. rewrite Hfalse.
    reflexivity. }
  unfold parse_stereoset_file. cbn [json_load bind].
  rewrite Hsection. cbn [bind]. rewrite Hlocate. cbn [bind].
  apply truthy_never_parses_to_nothing.
  unfold py_or.
  destruct (truthy (value_or_none _)) eqn:Hc; [ exact Hc | ].
  destruct fields; [ discriminate Hkey | reflexivity ].
Qed.

Lemma falsy_discriminator_falls_back_witness :
  locate_documents
    (JObj [ ("intersentence", JArr []);
            ("Intersentence", JArr [ sample_document "d1" ["s1"] ]) ])
    "intersentence"
  = Success (JArr [ sample_document "d1" ["s1"] ])
  /\ parse_stereoset_file (Some empty_lowercase_section) "intersentence"
     <> Success [].
Proof.
  destruct (@falsy_discriminator_falls_back empty_lowercase_section
              [ ("intersentence", JArr []);
                ("Intersentence", JArr [ sample_document "d1" ["s1"] ]) ]
              "intersentence" (JArr []))
    as (_ & Hcap & _ & Hparse).
  - reflexivity.
  - reflexivity.
  - reflexivity.
  - split; [ | exact Hparse ].
    apply (Hcap (JArr [ sample_document "d1" ["s1"] ])); reflexivity.
Defined.

(** * Further properties *)

(** ** Flat-category parser: what a parse returns *)

Lemma for_each_Forall2 {A B : Type} (body : A -> Result B) :
  forall xs ys,
    for_each body xs = Success ys
    <-> Forall2 (fun x y => body x = Success y) xs ys.
Proof.
  induction xs as [ | x rest IH]; intros ys; split; intros H.
  - simpl in H. injection H as <-. constructor.
  - inversion H. reflexivity.
  - simpl in H.
    destruct (body x) as [y | e] eqn:Hx; cbn [bind] in H; [ | discriminate ].
    destruct (for_each body rest) as [ys' | e] eqn:Hrest; cbn [bind] in H;
      [ | discriminate ].
    injection H as <-. constructor; [ exact Hx | ].
    apply IH. reflexivity.
  - inversion H as [ | ? y ? ys' Hx Hrest]; subst. simpl.
    rewrite Hx. cbn [bind].
    apply IH in Hrest. rewrite Hrest. reflexivity.
Qed.

Lemma for_each_first_failure {A B : Type} (body : A -> Result B) :
  forall good ys bad rest e,
    for_each body good = Success ys ->
    body bad = Failure e ->
    for_each body (good ++ bad :: rest) = Failure e.
Proof.
  induction good as [ | x good IH]; intros ys bad rest e Hgood Hbad; simpl.
  - rewrite Hbad. reflexivity.
  - simpl in Hgood.
    destruct (body x) as [y | e0]; cbn [bind] in *; [ | discriminate ].
    destruct (for_each body good) as [ys' | e0] eqn:Hrest; cbn [bind] in *;
      [ | discriminate ].
    rewrite (IH ys' bad rest e eq_refl Hbad). reflexivity.
Qed.

Lemma build_answer_spec (data : json) (i : nat) (a : BBQAnswer.t) :
  build_answer data i = Success a <-> answer_of data i a.
Proof.
  unfold build_answer, answer_of. split.
  - intros H.
    destruct (getitem data (ans_key i)) as [txt | ]; [ | discriminate ].
    cbn [bind] in *.
    destruct (getitem data "answer_info") as [info | ]; [ | discriminate ].
    cbn [bind] in *.
    destruct (getitem info (ans_key i)) as [pair | ]; [ | discriminate ].
    cbn [bind] in *.
    destruct (getitem_int pair 1) as [tg | ]; [ | discriminate ].
    cbn [bind] in *. injection H as <-. repeat split.
  - intros (Hi & Htxt & Htag). rewrite Htxt. cbn [bind].
    destruct (getitem data "answer_info") as [info | ]; [ | discriminate ].
    cbn [bind] in *.
    destruct (getitem info (ans_key i)) as [pair | ]; [ | discriminate ].
    cbn [bind] in *. rewrite Htag. cbn [bind].
    destruct a as [idx txt tg]. simpl in *. subst idx. reflexivity.
Qed.

Lemma getitem_object (o : json) (key : string) (v : json) :
  getitem o key = Success v -> exists fields, o = JObj fields.
Proof.
  destruct o; try discriminate. intros _. eexists. reflexivity.
Qed.

Lemma parse_bbq_line_spec (cat : string) (l : line) (e : BBQ.t) :
  parse_bbq_line cat l = Success e <-> line_entry cat l e.
Proof.
  unfold parse_bbq_line, line_entry. split.
  - intros H.
    destruct l as [data | ]; [ | discriminate ].
    cbn [json_loads bind] in H.
    destruct data as [ | | | | | | fields]; try discriminate.
    cbn [setitem bind] in H.
    destruct (for_each _ (seq 0 3)) as [answers | ] eqn:Hanswers;
      [ | discriminate ].
    cbn [bind] in H.
    destruct (getitem _ "additional_metadata") as [meta | ] eqn:Hmeta;
      [ | discriminate ].
    cbn [bind] in H.
    destruct (kwargs meta) as [kw | ] eqn:Hkw; [ | discriminate ].
    cbn [bind] in H.
    destruct (new_AdditionalMetadata kw) as [m | ] eqn:Hm; [ | discriminate ].
    cbn [bind] in H.
    rewrite getitem_category in H.
    rewrite !getitem_beside_category in H by discriminate.
    rewrite getitem_beside_category in Hmeta by discriminate.
    destruct (getitem (JObj fields) "example_id") eqn:?; [ | discriminate ].
    cbn [bind] in H.
    destruct (getitem (JObj fields) "question_index") eqn:?; [ | discriminate ].
    cbn [bind] in H.
    destruct (getitem (JObj fields) "question_polarity") eqn:?; [ | discriminate ].
    cbn [bind] in H.
    destruct (getitem (JObj fields) "context_condition") eqn:?; [ | discriminate ].
    cbn [bind] in H.
    destruct (getitem (JObj fields) "context") eqn:?; [ | discriminate ].
    cbn [bind] in H.
    destruct (getitem (JObj fields) "question") eqn:?; [ | discriminate ].
    cbn [bind] in H.
    destruct (getitem (JObj fields) "ans0") eqn:?; [ | discriminate ].
    cbn [bind] in H.
    destruct (getitem (JObj fields) "ans1") eqn:?; [ | discriminate ].
    cbn [bind] in H.
    destruct (getitem (JObj fields) "ans2") eqn:?; [ | discriminate ].
    cbn [bind] in H.
    destruct (getitem (JObj fields) "label") eqn:?; [ | discriminate ].
    cbn [bind] in H.
    injection H as <-. simpl.
    destruct meta as [ | | | | | | kw']; try discriminate.
    injection Hkw as <-.
    exists (JObj fields), kw'.
    repeat (split; [ reflexivity || assumption | ]).
    apply for_each_Forall2 in Hanswers.
    eapply Forall2_impl; [ | exact Hanswers ].
    intros i ans Ha. apply build_answer_spec in Ha.
    destruct Ha as (Hi & Htxt & Htag). unfold answer_of.
    rewrite getitem_beside_category in Htxt
      by (destruct i as [ | [ | [ | ]]]; discriminate).
    rewrite getitem_beside_category in Htag by discriminate.
    repeat split; assumption.
  - intros (data & kw & -> & Hcat & Hid & Hqi & Hqp & Hcc & Hctx & Hq
            & H0 & H1 & H2 & Hlabel & Hmeta & Hm & Hanswers).
    destruct (getitem_object _ _ Hid) as [fields ->].
    cbn [json_loads setitem bind].
    assert (Hbuilt : for_each
              (build_answer (JObj (dict_set fields "category" (JStr cat))))
              (seq 0 3) = Success (BBQ.answers e)).
    { apply for_each_Forall2.
      eapply Forall2_impl; [ | exact Hanswers ].
      intros i ans (Hi & Htxt & Htag). apply build_answer_spec.
      unfold answer_of.
      rewrite getitem_beside_category
        by (destruct i as [ | [ | [ | ]]]; discriminate).
      rewrite getitem_beside_category by discriminate.
      repeat split; assumption. }
    rewrite Hbuilt. cbn [bind].
    rewrite getitem_category.
    rewrite !getitem_beside_category by discriminate.
    rewrite Hmeta. cbn [kwargs bind]. rewrite Hm. cbn [bind].
    rewrite Hid, Hqi, Hqp, Hcc, Hctx, Hq, H0, H1, H2, Hlabel. cbn [bind].
    destruct e. simpl in *. subst. reflexivity.
Qed.

(** X1: every entry of a parsed file carries the category the caller
    passed, whatever [category] the line itself holds. *)
Theorem parse_bbq_file_category (lines : list line) (cat : string)
    (entries : list BBQ.t) :
  parse_bbq_file lines cat = Success entries ->
  Forall (fun e => BBQ.category e = JStr cat) entries.
Proof.
  unfold parse_bbq_file. intros H. apply for_each_Forall2 in H.
  induction H as [ | l e ls es Hl _ IH]; constructor; [ | exact IH ].
  apply parse_bbq_line_spec in Hl.
  destruct Hl as (data & kw & _ & Hcat & _). exact Hcat.
Qed.

Lemma parse_bbq_file_category_witness :
  Forall (fun e => BBQ.category e = JStr "SES") (sample_entries "SES").
Proof.
  apply (@parse_bbq_file_category [sample_line 1; sample_line 2] "SES").
  vm_compute. reflexivity.
Defined.

(** X2: [parse_bbq_file] succeeds exactly when every line, in order,
    stands for the entry at its position: the fields are the values of the
    line, the category is the caller's, the metadata validates, and answer
    [i] has index [i], text [ans{i}] and the tag at position 1 of
    [answer_info[ans{i}]]. *)
Theorem parse_bbq_file_spec (lines : list line) (cat : string)
    (entries : list BBQ.t) :
  parse_bbq_file lines cat = Success entries
  <-> Forall2 (line_entry cat) lines entries.
Proof.
  unfold parse_bbq_file. rewrite for_each_Forall2.
  split; intros H; (eapply Forall2_impl; [ | exact H ]);
    intros l e Hl; apply parse_bbq_line_spec; exact Hl.
Qed.

(** X3: the first line that fails decides the result of the file: after
    lines that parse, a line that fails with [e] makes the whole parse
    [Failure e], whatever follows it. *)
Theorem parse_bbq_file_first_failure (cat : string) (good : list line)
    (entries : list BBQ.t) (bad : line) (e : exn) :
  parse_bbq_file good cat = Success entries ->
  parse_bbq_file [bad] cat = Failure e ->
  forall rest, parse_bbq_file (good ++ bad :: rest) cat = Failure e.
Proof.
  unfold parse_bbq_file. intros Hgood Hbad rest.
  apply (for_each_first_failure _ good (ys := entries)); [ exact Hgood | ].
  cbn [for_each] in Hbad.
  destruct (parse_bbq_line cat bad); [ discriminate | ].
  cbn [bind] in Hbad. injection Hbad as ->. reflexivity.
Qed.

Lemma parse_bbq_file_first_failure_witness :
  parse_bbq_file ([sample_line 1; sample_line 2] ++ None :: [sample_line 3])
    "Age"
  = Failure JSONDecodeError.
Proof.
  apply (@parse_bbq_file_first_failure "Age" [sample_line 1; sample_line 2]
           (sample_entries "Age") None JSONDecodeError).
  - vm_compute. reflexivity.
  - reflexivity.
Defined.

(** X4: the exception of a bad line.  After lines that parse, a line that
    is not JSON fails the file with [JSONDecodeError]; a JSON value that is
    no object with [TypeError]; an object without [ans0] with
    [KeyError ans0]; one with [ans0] but without [answer_info] with
    [KeyError answer_info]; a tag array of fewer than two items with
    [IndexError]. *)
Theorem parse_bbq_file_exceptions (cat : string) (good : list line)
    (entries : list BBQ.t) (rest : list line) :
  parse_bbq_file good cat = Success entries ->
  parse_bbq_file (good ++ None :: rest) cat = Failure JSONDecodeError
  /\ (forall j,
        is_dict j = false ->
        parse_bbq_file (good ++ Some j :: rest) cat = Failure TypeError)
  /\ (forall fields,
        dict_lookup fields "ans0" = None ->
        parse_bbq_file (good ++ Some (JObj fields) :: rest) cat
        = Failure (KeyError "ans0"))
  /\ (forall fields txt,
        dict_lookup fields "ans0" = Some txt ->
        dict_lookup fields "answer_info" = None ->
        parse_bbq_file (good ++ Some (JObj fields) :: rest) cat
        = Failure (KeyError "answer_info"))
  /\ (forall fields txt info only,
        dict_lookup fields "ans0" = Some txt ->
        dict_lookup fields "answer_info" = Some (JObj info) ->
        dict_lookup info "ans0" = Some (JArr only) ->
        List.length only < 2 ->
        parse_bbq_file (good ++ Some (JObj fields) :: rest) cat
        = Failure IndexError).
Proof.
  unfold parse_bbq_file. intros Hgood.
  split; [ apply (for_each_first_failure _ good (ys := entries));
           [ exact Hgood | reflexivity ] | ].
  split.
  { intros j Hj. apply (for_each_first_failure _ good (ys := entries));
      [ exact Hgood | ].
    destruct j; try reflexivity. discriminate. }
  split.
  { intros fields H0. apply (for_each_first_failure _ good (ys := entries));
      [ exact Hgood | ].
    unfold parse_bbq_line. cbn [json_loads setitem bind seq for_each].
    unfold build_answer at 1.
    rewrite getitem_beside_category by discriminate.
    unfold getitem at 1. cbn [ans_key]. rewrite H0. reflexivity. }
  split.
  { intros fields txt H0 Hinfo.
    apply (for_each_first_failure _ good (ys := entries));
      [ exact Hgood | ].
    unfold parse_bbq_line. cbn [json_loads setitem bind seq for_each].
    unfold build_answer at 1.
    rewrite !getitem_beside_category by discriminate.
    unfold getitem at 1. cbn [ans_key]. rewrite H0. cbn [bind].
    unfold getitem at 1. rewrite Hinfo. reflexivity. }
  intros fields txt info only H0 Hinfo Hpair Hshort.
  apply (for_each_first_failure _ good (ys := entries));
    [ exact Hgood | ].
  unfold parse_bbq_line. cbn [json_loads setitem bind seq for_each].
  unfold build_answer at 1.
  rewrite !getitem_beside_category by discriminate.
  unfold getitem at 1. cbn [ans_key]. rewrite H0. cbn [bind].
  unfold getitem at 1. rewrite Hinfo. cbn [bind].
  unfold getitem at 1. rewrite Hpair. cbn [bind].
  destruct only as [ | x [ | y only']]; simpl in Hshort; try lia;
    reflexivity.
Qed.

Lemma parse_bbq_file_exceptions_witness :
  parse_bbq_file (sample_line 1 :: Some (JArr []) :: nil) "Age"
  = Failure TypeError.
Proof.
  destruct (@parse_bbq_file_exceptions "Age" [sample_line 1]
              (firstn 1 (sample_entries "Age")) [])
    as (_ & Hkind & _).
  - vm_compute. reflexivity.
  - apply (Hkind (JArr [])). reflexivity.
Defined.

(** ** Nested-document parser: what a parse returns *)

Lemma build_label_spec (l : json) (x : StereoSetLabel.t) :
  build_label l = Success x <-> label_of l x.
Proof.
  unfold build_label, label_of. split.
  - intros H.
    destruct (getitem l "label"); cbn [bind] in H; [ | discriminate ].
    destruct (getitem l "human_id"); cbn [bind] in H; [ | discriminate ].
    injection H as <-. split; reflexivity.
  - intros (H1 & H2). rewrite H1, H2. cbn [bind].
    destruct x; reflexivity.
Qed.

Lemma build_sentence_spec (s : json) (x : StereoSetSentence.t) :
  build_sentence s = Success x <-> sentence_of s x.
Proof.
  unfold build_sentence, sentence_of. split.
  - intros H.
    destruct (getitem s "labels") as [raw_labels | ] eqn:Hraw;
      cbn [bind] in H; [ | discriminate ].
    destruct (iterate raw_labels) as [items | ] eqn:Hitems;
      cbn [bind] in H; [ | discriminate ].
    destruct (for_each build_label items) as [labels | ] eqn:Hlabels;
      cbn [bind] in H; [ | discriminate ].
    destruct (getitem s "sentence"); cbn [bind] in H; [ | discriminate ].
    destruct (getitem s "id"); cbn [bind] in H; [ | discriminate ].
    destruct (getitem s "gold_label"); cbn [bind] in H; [ | discriminate ].
    injection H as <-. simpl. repeat (split; [ reflexivity | ]).
    exists raw_labels, items. repeat (split; [ reflexivity || assumption | ]).
    apply for_each_Forall2 in Hlabels.
    eapply Forall2_impl; [ | exact Hlabels ].
    intros l y Hy. apply build_label_spec. exact Hy.
  - intros (H1 & H2 & H3 & raw_labels & items & Hraw & Hitems & Hall).
    rewrite Hraw. cbn [bind]. rewrite Hitems. cbn [bind].
    assert (Hlabels : for_each build_label items
                      = Success (StereoSetSentence.labels x)).
    { apply for_each_Forall2. eapply Forall2_impl; [ | exact Hall ].
      intros l y Hy. apply build_label_spec. exact Hy. }
    rewrite Hlabels, H1, H2, H3. cbn [bind]. destruct x; reflexivity.
Qed.

Lemma build_document_spec (entry_type : string) (d : json)
    (x : StereoSet.t) :
  build_document entry_type d = Success x <-> document_of entry_type d x.
Proof.
  unfold build_document, document_of. split.
  - intros H.
    destruct (getitem d "sentences") as [raw | ] eqn:Hraw;
      cbn [bind] in H; [ | discriminate ].
    destruct (iterate raw) as [items | ] eqn:Hitems;
      cbn [bind] in H; [ | discriminate ].
    destruct (for_each build_sentence items) as [sentences | ] eqn:Hsent;
      cbn [bind] in H; [ | discriminate ].
    destruct (getitem d "id"); cbn [bind] in H; [ | discriminate ].
    destruct (getitem d "target"); cbn [bind] in H; [ | discriminate ].
    destruct (getitem d "bias_type"); cbn [bind] in H; [ | discriminate ].
    destruct (getitem d "context"); cbn [bind] in H; [ | discriminate ].
    injection H as <-. simpl. repeat (split; [ reflexivity | ]).
    exists raw, items. repeat (split; [ reflexivity || assumption | ]).
    apply for_each_Forall2 in Hsent.
    eapply Forall2_impl; [ | exact Hsent ].
    intros s y Hy. apply build_sentence_spec. exact Hy.
  - intros (Ht & H1 & H2 & H3 & H4 & raw & items & Hraw & Hitems & Hall).
    rewrite Hraw. cbn [bind]. rewrite Hitems. cbn [bind].
    assert (Hsent : for_each build_sentence items
                    = Success (StereoSet.sentences x)).
    { apply for_each_Forall2. eapply Forall2_impl; [ | exact Hall ].
      intros s y Hy. apply build_sentence_spec. exact Hy. }
    rewrite Hsent, H1, H2, H3, H4. cbn [bind].
    destruct x. simpl in *. subst. reflexivity.
Qed.

Lemma parse_stereoset_file_parts (content : option json)
    (entry_type : string) (entries : list StereoSet.t) :
  parse_stereoset_file content entry_type = Success entries
  <-> exists raw data located items,
        content = Some raw
        /\ data_section raw = Success data
        /\ locate_documents data entry_type = Success located
        /\ iterate located = Success items
        /\ Forall2 (document_of entry_type) items entries.
Proof.
  unfold parse_stereoset_file. split.
  - intros H.
    destruct content as [raw | ]; [ | discriminate ].
    cbn [json_load bind] in H.
    destruct (data_section raw) as [data | ] eqn:Hdata;
      cbn [bind] in H; [ | discriminate ].
    destruct (locate_documents data entry_type) as [located | ] eqn:Hloc;
      cbn [bind] in H; [ | discriminate ].
    destruct (iterate located) as [items | ] eqn:Hitems;
      cbn [bind] in H; [ | discriminate ].
    exists raw, data, located, items.
    repeat (split; [ reflexivity || assumption | ]).
    apply for_each_Forall2 in H.
    eapply Forall2_impl; [ | exact H ].
    intros d y Hy. apply build_document_spec. exact Hy.
  - intros (raw & data & located & items & -> & Hdata & Hloc & Hitems & Hall).
    cbn [json_load bind]. rewrite Hdata. cbn [bind].
    rewrite Hloc. cbn [bind]. rewrite Hitems. cbn [bind].
    apply for_each_Forall2. eapply Forall2_impl; [ | exact Hall ].
    intros d y Hy. apply build_document_spec. exact Hy.
Qed.

(** X5: [parse_stereoset_file] succeeds exactly when the file is JSON, the
    located object can be iterated, and every item, in order, stands for
    the document at its position: identifier, target, bias type and context
    are the item's values, the type is the caller's, and there is one
    sentence per item of [sentences] and one label per item of its
    [labels], in order. *)
Theorem parse_stereoset_file_spec (content : option json)
    (entry_type : string) (entries : list StereoSet.t) :
  parse_stereoset_file content entry_type = Success entries
  <-> exists raw data located items,
        content = Some raw
        /\ data_section raw = Success data
        /\ locate_documents data entry_type = Success located
        /\ iterate located = Success items
        /\ Forall2 (document_of entry_type) items entries.
Proof.
  apply parse_stereoset_file_parts.
Qed.

Lemma py_or_falsy (a b : json) :
  truthy (py_or a b) = false -> truthy b = false.
Proof.
  unfold py_or. destruct (truthy a) eqn:Ha; [ congruence | trivial ].
Qed.

Lemma iterate_nothing (o : json) :
  iterate o = Success [] -> truthy o = false.
Proof.
  destruct o as [ | | | | s | items | fields]; simpl; try discriminate.
  - destruct s; [ reflexivity | discriminate ].
  - destruct items; [ reflexivity | discriminate ].
  - destruct fields; [ reflexivity | discriminate ].
Qed.

Lemma locate_documents_dict (data : json) (entry_type : string)
    (located : json) :
  locate_documents data entry_type = Success located ->
  exists fields, data = JObj fields.
Proof.
  destruct data; try discriminate. intros _. eexists. reflexivity.
Qed.

(** X6: [parse_stereoset_file] returns the empty list of documents for
    exactly one shape of file: the data section is the empty object.  An
    empty array under the discriminator key, or an array as data section,
    never gives it. *)
Theorem parse_stereoset_file_nothing (raw : json) (entry_type : string) :
  parse_stereoset_file (Some raw) entry_type = Success []
  <-> data_section raw = Success (JObj []).
Proof.
  split.
  - intros H. apply parse_stereoset_file_parts in H.
    destruct H as (raw' & data & located & items & Hraw & Hdata & Hloc
                   & Hitems & Hall).
    injection Hraw as <-. inversion Hall; subst.
    apply iterate_nothing in Hitems.
    destruct (locate_documents_dict _ _ Hloc) as [fields ->].
    rewrite locate_documents_object in Hloc. injection Hloc as <-.
    apply py_or_falsy, py_or_falsy in Hitems.
    destruct fields; [ exact Hdata | discriminate ].
  - intros Hdata. unfold parse_stereoset_file. cbn [json_load bind].
    rewrite Hdata. reflexivity.
Qed.

(** X7: the fallback to the whole data section never yields a document.
    When the data section is a non-empty object and neither the key nor its
    capitalized form holds a truthy value, the keys of the object are taken
    as documents and the parse fails with [TypeError]. *)
Theorem whole_section_fallback_fails (raw : json)
    (fields : list (string * json)) (entry_type : string) :
  data_section raw = Success (JObj fields) ->
  fields <> [] ->
  truthy (value_or_none (dict_lookup fields entry_type)) = false ->
  truthy (value_or_none (dict_lookup fields (capitalize entry_type)))
  = false ->
  locate_documents (JObj fields) entry_type = Success (JObj fields)
  /\ parse_stereoset_file (Some raw) entry_type = Failure TypeError.
Proof.
  intros Hdata Hne Hlower Hupper.
  assert (Hloc : locate_documents (JObj fields) entry_type
                 = Success (JObj fields)).
  { rewrite locate_documents_object. unfold py_or.
    rewrite Hlower, Hupper. reflexivity. }
  split; [ exact Hloc | ].
  unfold parse_stereoset_file. cbn [json_load bind].
  rewrite Hdata. cbn [bind]. rewrite Hloc. cbn [bind iterate].
  destruct fields as [ | [k v] rest]; [ congruence | ].
  reflexivity.
Qed.

Lemma whole_section_fallback_fails_witness :
  parse_stereoset_file
    (Some (JObj [ ("data",
                   JObj [ ("documents",
                           JArr [ sample_document "d1" ["s1"] ]) ]) ]))
    "intersentence"
  = Failure TypeError.
Proof.
  apply (@whole_section_fallback_fails
           (JObj [ ("data",
                    JObj [ ("documents",
                            JArr [ sample_document "d1" ["s1"] ]) ]) ])
           [ ("documents", JArr [ sample_document "d1" ["s1"] ]) ]
           "intersentence").
  - reflexivity.
  - discriminate.
  - reflexivity.
  - reflexivity.
Defined.

Lemma label_of_not_malformed (l : json) (x : StereoSetLabel.t) :
  label_of l x -> malformed_label l = false.
Proof.
  intros (H1 & H2). unfold malformed_label, label_fields. cbn [existsb].
  rewrite (getitem_not_lacks _ _ H1), (getitem_not_lacks _ _ H2).
  reflexivity.
Qed.

Lemma existsb_Forall2_false {A B : Type} (bad : A -> bool)
    (R : A -> B -> Prop) :
  (forall a b, R a b -> bad a = false) ->
  forall xs ys, Forall2 R xs ys -> existsb bad xs = false.
Proof.
  intros HR xs ys H. induction H as [ | a b xs ys Hab _ IH]; simpl.
  - reflexivity.
  - rewrite (HR a b Hab), IH. reflexivity.
Qed.

Lemma array_under_items (o : json) (key : string) (raw : json)
    (items : list json) (bad : json -> bool) :
  getitem o key = Success raw ->
  iterate raw = Success items ->
  existsb bad items = false ->
  existsb bad (array_under o key) = false.
Proof.
  intros Hraw Hitems Hbad. unfold array_under. rewrite Hraw.
  destruct raw; try reflexivity.
  simpl in Hitems. injection Hitems as <-. exact Hbad.
Qed.

Lemma sentence_of_not_malformed (s : json) (x : StereoSetSentence.t) :
  sentence_of s x -> malformed_sentence s = false.
Proof.
  intros (H1 & H2 & H3 & raw & items & Hraw & Hitems & Hall).
  unfold malformed_sentence, sentence_fields. cbn [existsb].
  rewrite (getitem_not_lacks _ _ H1), (getitem_not_lacks _ _ H2),
    (getitem_not_lacks _ _ H3), (getitem_not_lacks _ _ Hraw).
  cbn [orb].
  apply array_under_items with (raw := raw) (items := items);
    [ exact Hraw | exact Hitems | ].
  eapply existsb_Forall2_false; [ | exact Hall ].
  intros l y Hy. eapply label_of_not_malformed. exact Hy.
Qed.

Lemma document_of_not_malformed (entry_type : string) (d : json)
    (x : StereoSet.t) :
  document_of entry_type d x -> malformed_document d = false.
Proof.
  intros (_ & H1 & H2 & H3 & H4 & raw & items & Hraw & Hitems & Hall).
  unfold malformed_document, document_fields. cbn [existsb].
  rewrite (getitem_not_lacks _ _ H1), (getitem_not_lacks _ _ H2),
    (getitem_not_lacks _ _ H3), (getitem_not_lacks _ _ H4),
    (getitem_not_lacks _ _ Hraw).
  cbn [orb].
  apply array_under_items with (raw := raw) (items := items);
    [ exact Hraw | exact Hitems | ].
  eapply existsb_Forall2_false; [ | exact Hall ].
  intros s y Hy. eapply sentence_of_not_malformed. exact Hy.
Qed.

(** X8: a nested-document file in which one located document lacks a
    field, or has a sentence or a label that lacks one, fails as a whole:
    [parse_stereoset_file] returns a [Failure], the loader logs it, leaves
    the session as it was and goes on with the next file. *)
Theorem malformed_document_fails_the_file
    (Session : Type)
    (flush : Session -> list StereoSet.t -> Session * option exn)
    (files : string -> option (option json)) (filename entry_type : string)
    (raw data located : json) (items : list json) (d : json) :
  files filename = Some (Some raw) ->
  data_section raw = Success data ->
  locate_documents data entry_type = Success located ->
  iterate located = Success items ->
  In d items ->
  malformed_document d = true ->
  exists e,
    parse_stereoset_file (Some raw) entry_type = Failure e
    /\ (forall st rest,
          fold_left (load_stereoset_file flush files)
                    ((filename, entry_type) :: rest) st
          = fold_left (load_stereoset_file flush files) rest
              (fst st,
               snd st ++ [(ERROR, Failed_parsing "StereoSet" filename e)])).
Proof.
  intros Hfile Hdata Hloc Hitems Hin Hbad.
  destruct (parse_stereoset_file (Some raw) entry_type) as [entries | e]
    eqn:Hparse.
  - exfalso. apply parse_stereoset_file_parts in Hparse.
    destruct Hparse as (raw' & data' & located' & items' & Hraw & Hdata'
                        & Hloc' & Hitems' & Hall).
    injection Hraw as <-.
    rewrite Hdata in Hdata'. injection Hdata' as <-.
    rewrite Hloc in Hloc'. injection Hloc' as <-.
    rewrite Hitems in Hitems'. injection Hitems' as <-.
    assert (Hnone : existsb malformed_document items = false).
    { eapply existsb_Forall2_false; [ | exact Hall ].
      intros d0 y Hy. eapply document_of_not_malformed. exact Hy. }
    assert (Hsome : existsb malformed_document items = true).
    { apply existsb_exists. exists d. split; assumption. }
    congruence.
  - exists e. split; [ reflexivity | ].
    intros st rest. cbn [fold_left]. unfold load_stereoset_file at 2.
    rewrite Hfile, Hparse. reflexivity.
Qed.

Lemma malformed_document_fails_the_file_witness :
  exists e,
    parse_stereoset_file (Some broken_document_raw) "intersentence"
    = Failure e.
Proof.
  destruct (@malformed_document_fails_the_file Database.t flush_stereoset
              (only_file "intersentence.json" (Some broken_document_raw))
              "intersentence.json" "intersentence"
              broken_document_raw
              (JObj [ ("intersentence", JArr broken_documents) ])
              (JArr broken_documents) broken_documents broken_document)
    as (e & He & _).
  - reflexivity.
  - reflexivity.
  - reflexivity.
  - reflexivity.
  - right. left. reflexivity.
  - reflexivity.
  - exists e. exact He.
Defined.

(** ** BatchLoader on the tables *)

Lemma insert_chunk_bbq_outcome (db : Database.t) (chunk : list BBQ.t) :
  insert_chunk flush_bbq db chunk
  = (Database.mk (Database.bbq db ++ chunk) (Database.stereoset db),
     Success tt)
  \/ exists e, insert_chunk flush_bbq db chunk = (db, Failure e).
Proof.
  destruct chunk as [ | entry rest].
  - left. rewrite app_nil_r. destruct db; reflexivity.
  - right. eexists. reflexivity.
Qed.

Lemma insert_chunk_stereoset_outcome (db : Database.t)
    (chunk : list StereoSet.t) :
  insert_chunk flush_stereoset db chunk
  = (Database.mk (Database.bbq db) (Database.stereoset db ++ chunk),
     Success tt)
  \/ exists e, insert_chunk flush_stereoset db chunk = (db, Failure e).
Proof.
  destruct (insert_chunk_stereoset_cases db chunk)
    as [(_ & H) | (e & _ & H)].
  - left. exact H.
  - right. exists e. exact H.
Qed.


(** ** Sources of at most one chunk, loaded *)

(** X15: a source of at most [chunk_size] (1000) entities is loaded in one
    sub-transaction: it is stored completely or not at all, and in both
    cases its record in the log is [Loaded N].  An empty source starts no
    load and is logged as 0 loaded. *)
Theorem small_source_is_one_transaction
    (Session E : Type) (flush : Session -> list E -> Session * option exn)
    (family source : string) (entries : list E)
    (session : Session) (log : list log_record) :
  (0 < List.length entries <= chunk_size ->
   snd (gather_inserts flush session (make_chunks chunk_size entries))
   = [awaitable (snd (insert_chunk flush session entries))]
   /\ load_entries flush family source entries (session, log)
      = (match flush session entries with
         | (session', None) => session'
         | (_, Some _) => session
         end,
         log ++ [(INFO, Loaded (List.length entries) family source)]))
  /\ (entries = [] ->
      load_entries flush family source entries (session, log)
      = (session, log ++ [(INFO, Loaded 0 family source)])).
Proof.
  split.
  - intros Hlen. rewrite load_entries_outcome. cbn [fst snd].
    rewrite make_chunks_single by exact Hlen.
    cbn [gather_inserts]. unfold insert_chunk.
    destruct (flush session entries) as [session' [e | ]];
      split; reflexivity.
  - intros ->. reflexivity.
Qed.

Lemma small_source_is_one_transaction_witness :
  snd (gather_inserts flush_stereoset Database.empty
         (make_chunks chunk_size repeated_documents))
  = [awaitable
       (snd (insert_chunk flush_stereoset Database.empty
               repeated_documents))]
  /\ load_entries flush_stereoset "StereoSet" "intersentence.json"
       repeated_documents (Database.empty, [])
     = (match flush_stereoset Database.empty repeated_documents with
        | (session', None) => session'
        | (_, Some _) => Database.empty
        end,
        [] ++ [(INFO, Loaded (List.length repeated_documents) "StereoSet"
                        "intersentence.json")]).
Proof.
  apply (@small_source_is_one_transaction Database.t StereoSet.t
           flush_stereoset "StereoSet" "intersentence.json"
           repeated_documents Database.empty []).
  vm_compute. split; repeat constructor.
Defined.

(** ** Invariants of a whole load *)

Lemma Success_inj {A : Type} (a b : A) : Success a = Success b -> a = b.
Proof. intros H. injection H as H. exact H. Qed.

Section LoadInvariant.

Variable Session : Type.
Variable flush_bbq' : Session -> list BBQ.t -> Session * option exn.
Variable flush_stereoset'
  : Session -> list StereoSet.t -> Session * option exn.
Variable P : Session -> Prop.

Lemma gather_inserts_keeps {E : Type}
    (flush : Session -> list E -> Session * option exn) :
  (forall s c, P s -> P (fst (insert_chunk flush s c))) ->
  forall chunks s, P s -> P (fst (gather_inserts flush s chunks)).
Proof.
  intros Hstep chunks s Hs. rewrite gather_inserts_session.
  destruct chunks as [ | first others]; [ exact Hs | ].
  apply Hstep. exact Hs.
Qed.

Lemma load_entries_session {E : Type}
    (flush : Session -> list E -> Session * option exn)
    (family source : string) (entries : list E) (st : Session * list log_record) :
  fst (load_entries flush family source entries st)
  = fst (gather_inserts flush (fst st) (make_chunks chunk_size entries)).
Proof. rewrite load_entries_outcome. reflexivity. Qed.

Hypothesis bbq_step :
  forall s c, P s -> P (fst (insert_chunk flush_bbq' s c)).
Hypothesis stereoset_step :
  forall s c, P s -> P (fst (insert_chunk flush_stereoset' s c)).

Lemma load_bbq_keeps (session : Session) (base_path : base_dir)
    (st : Session * list log_record) :
  P session ->
  load_bbq flush_bbq' session base_path = Success st ->
  P (fst st).
Proof.
  intros Hs. unfold load_bbq.
  destruct (bbq_dir base_path) as [files | ]; [ | discriminate ].
  intros H. apply Success_inj in H. rewrite <- H. clear H.
  assert (Hfold : forall cats st0,
             P (fst st0) ->
             P (fst (fold_left (load_bbq_category flush_bbq' files)
                               cats st0))).
  { induction cats as [ | cat rest IH]; intros st0 H0; simpl.
    - exact H0.
    - apply IH. unfold load_bbq_category.
      destruct (files _) as [lines | ]; [ | exact H0 ].
      destruct (parse_bbq_file lines cat) as [entries | e]; [ | exact H0 ].
      rewrite load_entries_session.
      apply gather_inserts_keeps; [ exact bbq_step | exact H0 ]. }
  apply Hfold. exact Hs.
Qed.

Lemma load_stereoset_keeps (session : Session) (base_path : base_dir)
    (st : Session * list log_record) :
  P session ->
  load_stereoset flush_stereoset' session base_path = Success st ->
  P (fst st).
Proof.
  intros Hs. unfold load_stereoset.
  destruct (stereoset_dir base_path) as [files | ]; [ | discriminate ].
  intros H. apply Success_inj in H. rewrite <- H. clear H.
  assert (Hfold : forall sources st0,
             P (fst st0) ->
             P (fst (fold_left (load_stereoset_file flush_stereoset' files)
                               sources st0))).
  { induction sources as [ | [filename entry_type] rest IH];
      intros st0 H0; cbn [fold_left].
    - exact H0.
    - apply IH. unfold load_stereoset_file.
      destruct (files _) as [content | ]; [ | exact H0 ].
      destruct (parse_stereoset_file content entry_type) as [entries | e];
        [ | exact H0 ].
      rewrite load_entries_session.
      apply gather_inserts_keeps; [ exact stereoset_step | exact H0 ]. }
  apply Hfold. exact Hs.
Qed.

End LoadInvariant.

(** The rows of [db'] are those of [db] followed by new ones. *)
Lemma bbq_extended_step (db0 : Database.t) :
  forall s c,
    ((exists added, Database.bbq s = Database.bbq db0 ++ added)
     /\ Database.stereoset s = Database.stereoset db0) ->
    (exists added,
        Database.bbq (fst (insert_chunk flush_bbq s c))
        = Database.bbq db0 ++ added)
    /\ Database.stereoset (fst (insert_chunk flush_bbq s c))
       = Database.stereoset db0.
Proof.
  intros s c ((added & Hadded) & Hother).
  destruct (insert_chunk_bbq_outcome s c) as [H | (e & H)]; rewrite H; simpl.
  - split; [ | exact Hother ].
    exists (added ++ c). rewrite Hadded, app_assoc. reflexivity.
  - split; [ exists added; exact Hadded | exact Hother ].
Qed.

Lemma stereoset_extended_step (db0 : Database.t) :
  forall s c,
    ((exists added, Database.stereoset s = Database.stereoset db0 ++ added)
     /\ Database.bbq s = Database.bbq db0) ->
    (exists added,
        Database.stereoset (fst (insert_chunk flush_stereoset s c))
        = Database.stereoset db0 ++ added)
    /\ Database.bbq (fst (insert_chunk flush_stereoset s c))
       = Database.bbq db0.
Proof.
  intros s c ((added & Hadded) & Hother).
  destruct (insert_chunk_stereoset_outcome s c) as [H | (e & H)];
    rewrite H; simpl.
  - split; [ | exact Hother ].
    exists (added ++ c). rewrite Hadded, app_assoc. reflexivity.
  - split; [ exists added; exact Hadded | exact Hother ].
Qed.

(** X10: ingestion only appends.  After a whole run of [load_bbq] the
    entry table is the one before followed by new rows, and the document
    table is unchanged; after a whole run of [load_stereoset] the document
    table is the one before followed by new rows, and the entry table is
    unchanged.  No stored row is changed, removed or reordered, whatever
    the files hold and whichever chunks fail. *)
Theorem loads_only_append (db : Database.t) (base_path : base_dir) :
  (forall db' log,
      load_bbq flush_bbq db base_path = Success (db', log) ->
      (exists added, Database.bbq db' = Database.bbq db ++ added)
      /\ Database.stereoset db' = Database.stereoset db)
  /\ (forall db' log,
      load_stereoset flush_stereoset db base_path = Success (db', log) ->
      (exists added,
          Database.stereoset db' = Database.stereoset db ++ added)
      /\ Database.bbq db' = Database.bbq db).
Proof.
  split; intros db' log Hrun.
  - apply (@load_bbq_keeps Database.t flush_bbq
             (fun s =>
                (exists added, Database.bbq s = Database.bbq db ++ added)
                /\ Database.stereoset s = Database.stereoset db)
             (bbq_extended_step db) db base_path (db', log));
      [ | exact Hrun ].
    split; [ exists []; rewrite app_nil_r; reflexivity | reflexivity ].
  - apply (@load_stereoset_keeps Database.t flush_stereoset
             (fun s =>
                (exists added,
                    Database.stereoset s = Database.stereoset db ++ added)
                /\ Database.bbq s = Database.bbq db)
             (stereoset_extended_step db) db base_path (db', log));
      [ | exact Hrun ].
    split; [ exists []; rewrite app_nil_r; reflexivity | reflexivity ].
Qed.

Lemma loads_only_append_witness :
  exists added,
    Database.stereoset
      (fst (match shared_document_run with
            | Success st => st
            | Failure _ => (Database.empty, [])
            end))
    = Database.stereoset Database.empty ++ added.
Proof.
  destruct (@loads_only_append Database.empty shared_document_base)
    as (_ & Hstereoset).
  destruct shared_document_run as [[db' log] | e] eqn:Hrun.
  - destruct (Hstereoset db' log Hrun) as (Hadded & _). exact Hadded.
  - exists []. reflexivity.
Defined.

(** X11: a whole run keeps the identifiers unique.  If the stored
    [example_id]s are pairwise distinct before [load_bbq], they are after
    it; if the stored document ids and [sentence_id]s are pairwise distinct
    before [load_stereoset], they are after it. *)
Theorem loads_keep_identifiers_unique (db : Database.t)
    (base_path : base_dir) :
  (forall db' log,
      NoDup (bbq_keys db) ->
      load_bbq flush_bbq db base_path = Success (db', log) ->
      NoDup (bbq_keys db'))
  /\ (forall db' log,
      NoDup (document_keys db) ->
      NoDup (sentence_keys db) ->
      load_stereoset flush_stereoset db base_path = Success (db', log) ->
      NoDup (document_keys db') /\ NoDup (sentence_keys db')).
Proof.
  split.
  - intros db' log Hdb Hrun.
    apply (@load_bbq_keeps Database.t flush_bbq
             (fun s => NoDup (bbq_keys s)))
      with (session := db) (base_path := base_path) (st := (db', log));
      [ | exact Hdb | exact Hrun ].
    intros s c Hs. rewrite insert_chunk_bbq_same. exact Hs.
  - intros db' log Hdocs Hsent Hrun.
    apply (@load_stereoset_keeps Database.t flush_stereoset
             (fun s => NoDup (document_keys s)
                       /\ NoDup (sentence_keys s)))
      with (session := db) (base_path := base_path) (st := (db', log));
      [ | split; assumption | exact Hrun ].
    intros s c [Hd Hs]. split.
    + apply insert_chunk_stereoset_unique_ids. exact Hd.
    + apply insert_chunk_stereoset_unique_sentences. exact Hs.
Qed.

Lemma loads_keep_identifiers_unique_witness :
  NoDup (bbq_keys
           (fst (match two_chunk_run with
                 | Success st => st
                 | Failure _ => (Database.empty, [])
                 end))).
Proof.
  destruct (@loads_keep_identifiers_unique Database.empty two_chunk_base)
    as (Hbbq & _).
  destruct two_chunk_run as [[db' log] | e] eqn:Hrun.
  - apply (Hbbq db' log); [ simpl; constructor | exact Hrun ].
  - simpl. constructor.
Defined.

(** ** The two families do not interfere *)

Section Transport.

Variable Session : Type.
Variable T : Session -> Session.

Section OneFlush.

Variable E : Type.
Variable flush : Session -> list E -> Session * option exn.
Hypothesis flush_transport :
  forall s c, flush (T s) c = (T (fst (flush s c)), snd (flush s c)).




End OneFlush.

Variable flush_bbq' : Session -> list BBQ.t -> Session * option exn.
Variable flush_stereoset'
  : Session -> list StereoSet.t -> Session * option exn.



End Transport.





(** ** Loading a source again *)

(** X12: nothing is deduplicated across runs, and nothing says so.
    Loading a source all of whose documents are already stored leaves the
    tables as they were; its record in the log is still [Loaded N]. *)
Theorem reloading_stores_nothing (db : Database.t)
    (entries : list StereoSet.t) (family source : string)
    (log : list log_record) :
  (forall d, In d entries -> In (StereoSet.id d) (document_keys db)) ->
  load_entries flush_stereoset family source entries (db, log)
  = (db, log ++ [(INFO, Loaded (List.length entries) family source)]).
Proof.
  intros Hstored.
  assert (Hc : 1 <= chunk_size) by (unfold chunk_size; lia).
  rewrite load_entries_outcome. cbn [fst snd]. f_equal.
  rewrite gather_inserts_session.
  pose proof (make_chunks_members entries Hc) as Hmembers.
  destruct (make_chunks chunk_size entries) as [ | first others];
    [ reflexivity | ].
  inversion Hmembers as [ | ? ? (Hne & Hin) _]; subst.
  destruct first as [ | d rest]; [ congruence | ].
  destruct (@insert_chunk_stereoset_refused db (d :: rest)) as [e He].
  - apply (@stored_document_is_refused db (d :: rest) d).
    + left. reflexivity.
    + apply Hstored, Hin. left. reflexivity.
  - rewrite He. reflexivity.
Qed.

Lemma reloading_stores_nothing_witness :
  load_entries flush_stereoset "StereoSet" "intrasentence.json"
    shared_document_chunk
    (Database.mk [] (firstn 1 repeated_documents), [])
  = (Database.mk [] (firstn 1 repeated_documents),
     [] ++ [(INFO, Loaded (List.length shared_document_chunk) "StereoSet"
                     "intrasentence.json")]).
Proof.
  apply (@reloading_stores_nothing
           (Database.mk [] (firstn 1 repeated_documents))
           shared_document_chunk "StereoSet" "intrasentence.json" []).
  intros d Hd. vm_compute in Hd. destruct Hd as [<- | []].
  vm_compute. left. reflexivity.
Defined.

(** ** What the log says *)

Lemma load_bbq_category_log (Session : Type)
    (flush : Session -> list BBQ.t -> Session * option exn)
    (files : string -> option (list line))
    (st : Session * list log_record) (cat : string) :
  snd (load_bbq_category flush files st cat)
  = snd st ++ [bbq_record files cat].
Proof.
  unfold load_bbq_category, bbq_record.
  destruct (files _) as [lines | ]; [ | reflexivity ].
  destruct (parse_bbq_file lines cat) as [entries | e]; [ | reflexivity ].
  rewrite load_entries_outcome. reflexivity.
Qed.

Lemma load_stereoset_file_log (Session : Type)
    (flush : Session -> list StereoSet.t -> Session * option exn)
    (files : string -> option (option json))
    (st : Session * list log_record) (file : string * string) :
  snd (load_stereoset_file flush files st file)
  = snd st ++ [stereoset_record files file].
Proof.
  unfold load_stereoset_file, stereoset_record.
  destruct file as [filename entry_type]. cbn [fst snd].
  destruct (files _) as [content | ]; [ | reflexivity ].
  destruct (parse_stereoset_file content entry_type) as [entries | e];
    [ | reflexivity ].
  rewrite load_entries_outcome. reflexivity.
Qed.

Lemma fold_log {S A : Type} (step : S * list log_record -> A -> S * list log_record)
    (record : A -> log_record) :
  (forall st x, snd (step st x) = snd st ++ [record x]) ->
  forall xs st,
    snd (fold_left step xs st) = snd st ++ map record xs.
Proof.
  intros Hstep. induction xs as [ | x rest IH]; intros st; cbn [fold_left map].
  - rewrite app_nil_r. reflexivity.
  - rewrite IH, Hstep, <- app_assoc. reflexivity.
Qed.

(** X13: the log is a function of the files alone.  A run of a loader
    writes one record per source, in the order of the sources: a warning
    for a missing file, the parse failure for a file that does not parse,
    and otherwise [Loaded N] with N the number of parsed entities.  It
    does not depend on the session, on what the database holds or on what
    the chunk loads returned, and it never holds an insert failure. *)
Theorem log_is_a_function_of_the_files
    (Session : Type)
    (flush_bbq' : Session -> list BBQ.t -> Session * option exn)
    (flush_stereoset' : Session -> list StereoSet.t -> Session * option exn)
    (session : Session) (base_path : base_dir) :
  run_log (load_bbq flush_bbq' session base_path)
  = match bbq_dir base_path with
    | Some files => map (bbq_record files) bbq_categories
    | None => []
    end
  /\ run_log (load_stereoset flush_stereoset' session base_path)
     = match stereoset_dir base_path with
       | Some files => map (stereoset_record files) stereoset_files
       | None => []
       end
  /\ (forall family source e,
        ~ In (ERROR, Insert_failure family source e)
             (run_log (load_bbq flush_bbq' session base_path)
              ++ run_log (load_stereoset flush_stereoset' session
                            base_path))).
Proof.
  assert (Hbbq : run_log (load_bbq flush_bbq' session base_path)
                 = match bbq_dir base_path with
                   | Some files => map (bbq_record files) bbq_categories
                   | None => []
                   end).
  { unfold load_bbq. destruct (bbq_dir base_path) as [files | ];
      [ | reflexivity ].
    unfold run_log.
    pose proof (fold_log (load_bbq_category flush_bbq' files)
                  (bbq_record files)
                  (fun st cat => load_bbq_category_log flush_bbq' files st cat)
                  bbq_categories (session, [])) as Hlog.
    destruct (fold_left _ _ _) as [s' log]. exact Hlog. }
  assert (Hstereoset :
            run_log (load_stereoset flush_stereoset' session base_path)
            = match stereoset_dir base_path with
              | Some files => map (stereoset_record files) stereoset_files
              | None => []
              end).
  { unfold load_stereoset. destruct (stereoset_dir base_path) as [files | ];
      [ | reflexivity ].
    unfold run_log.
    pose proof (fold_log (load_stereoset_file flush_stereoset' files)
                  (stereoset_record files)
                  (fun st file =>
                     load_stereoset_file_log flush_stereoset' files st file)
                  stereoset_files (session, [])) as Hlog.
    destruct (fold_left _ _ _) as [s' log]. exact Hlog. }
  split; [ exact Hbbq | ].
  split; [ exact Hstereoset | ].
  intros family source e Hin. rewrite Hbbq, Hstereoset in Hin.
  apply in_app_or in Hin. destruct Hin as [Hin | Hin].
  - destruct (bbq_dir base_path) as [files | ]; [ | exact Hin ].
    apply in_map_iff in Hin. destruct Hin as (cat & Hrec & _).
    unfold bbq_record in Hrec.
    destruct (files _) as [lines | ]; [ | discriminate ].
    destruct (parse_bbq_file lines cat); discriminate.
  - destruct (stereoset_dir base_path) as [files | ]; [ | exact Hin ].
    apply in_map_iff in Hin. destruct Hin as (file & Hrec & _).
    unfold stereoset_record in Hrec.
    destruct (files _) as [content | ]; [ | discriminate ].
    destruct (parse_stereoset_file content (snd file)); discriminate.
Qed.

(** ** Loading documents whose identifiers are new *)



Section Accepted.

Variable R : Type.
Variable table : string.
Variable columns : R -> list (string * json).


Variable c : string.
Variable key : R -> json.
Hypothesis key_is_a_column : forall r, In (c, key r) (columns r).


End Accepted.






(** ** Entries and the database *)

(** X17: a run of [load_bbq] never changes the database, whatever the
    files hold: every INSERT of an entry raises while its parameters are
    prepared, so every chunk load is rolled back. *)
Theorem load_bbq_stores_nothing (db : Database.t) (base_path : base_dir)
    (st : Database.t * list log_record) :
  load_bbq flush_bbq db base_path = Success st ->
  fst st = db.
Proof.
  intros Hrun.
  apply (@load_bbq_keeps Database.t flush_bbq (fun s => s = db))
    with (session := db) (base_path := base_path);
    [ | reflexivity | exact Hrun ].
  intros s c ->. apply insert_chunk_bbq_same.
Qed.

Lemma load_bbq_stores_nothing_witness :
  fst after_bbq = Database.empty.
Proof.
  apply (@load_bbq_stores_nothing Database.empty both_families_base
           after_bbq).
  vm_compute. reflexivity.
Defined.

(** ** Required columns *)




(** ** Download *)

Module DownloadFacts.
Import Download.

Lemma write_same (fs : filesystem) (p : string) (n : node) :
  write fs p n p = Some n.
Proof. unfold write. rewrite String.eqb_refl. reflexivity. Qed.

Lemma write_other (fs : filesystem) (p q : string) (n : node) :
  q <> p -> write fs p n q = fs q.
Proof.
  intros Hne. unfold write.
  destruct (String.eqb q p) eqn:H; [ | reflexivity ].
  apply String.eqb_eq in H. congruence.
Qed.

Lemma remove_same (fs : filesystem) (p : string) : remove fs p p = None.
Proof. unfold remove. rewrite String.eqb_refl. reflexivity. Qed.

Lemma remove_other (fs : filesystem) (p q : string) :
  q <> p -> remove fs p q = fs q.
Proof.
  intros Hne. unfold remove.
  destruct (String.eqb q p) eqn:H; [ | reflexivity ].
  apply String.eqb_eq in H. congruence.
Qed.

Lemma append_empty_r (s : string) : (s ++ "")%string = s.
Proof.
  induction s as [ | c s IH]; simpl; [ | rewrite IH ]; reflexivity.
Qed.

Lemma append_assoc (a b c : string) :
  ((a ++ b) ++ c)%string = (a ++ (b ++ c))%string.
Proof.
  induction a as [ | x a IH]; simpl; [ | rewrite IH ]; reflexivity.
Qed.

Lemma concat_cons (x : string) (rest : list string) :
  String.concat "" (x :: rest) = (x ++ String.concat "" rest)%string.
Proof.
  destruct rest; simpl; [ rewrite append_empty_r | ]; reflexivity.
Qed.

(** The chunks written to the open temporary file. *)
Lemma written_chunks (tmp : string) :
  forall received fs content,
    fs tmp = Some (RegularFile content) ->
    fold_left (fun f chunk => append f tmp chunk) received fs tmp
    = Some (RegularFile (content ++ String.concat "" received)%string)
    /\ forall q, q <> tmp ->
         fold_left (fun f chunk => append f tmp chunk) received fs q = fs q.
Proof.
  induction received as [ | chunk rest IH]; intros fs content Htmp.
  - simpl. rewrite append_empty_r. split; [ exact Htmp | reflexivity ].
  - cbn [fold_left].
    assert (Hstep : append fs tmp chunk tmp
                    = Some (RegularFile (content ++ chunk)%string)).
    { unfold append. rewrite Htmp. apply write_same. }
    destruct (IH _ _ Hstep) as (Hcontent & Hother).
    split.
    + rewrite Hcontent, concat_cons, append_assoc. reflexivity.
    + intros q Hq. rewrite (Hother q Hq). unfold append. rewrite Htmp.
      apply write_other. exact Hq.
Qed.

Lemma _download_cases (network : string -> attempt response)
    (url dest parent tmp : string) (fs : filesystem) (log : list note)
    (fs' : filesystem) (log' : list note) (r : attempt unit) :
  fs tmp = None ->
  tmp <> dest ->
  fs dest <> Some Directory ->
  _download network url dest parent tmp fs log = (fs', log', r) ->
  (exists e, r = Failed e /\ log' = log /\ forall q, fs' q = fs q)
  \/ (exists resp,
         network url = Succeeded resp
         /\ r = Succeeded tt
         /\ log' = log ++ [Downloaded dest]
         /\ fs' dest = Some (RegularFile (String.concat "" (chunks resp)))
         /\ forall q, q <> dest -> fs' q = fs q).
Proof.
  intros Hfresh Hne Hdest. unfold _download.
  destruct (network url) as [resp | e] eqn:Hnet.
  2: { intros H. injection H as <- <- <-. left. exists e. repeat split. }
  destruct (status_error resp) as [e | ].
  { intros H. injection H as <- <- <-. left. exists e. repeat split. }
  destruct (total resp) as [n | e].
  2: { intros H. injection H as <- <- <-. left. exists e. repeat split. }
  unfold TempDownload_enter.
  destruct (fs parent) as [[ | content] | ].
  2: { intros H. injection H as <- <- <-. left. eexists. repeat split. }
  2: { intros H. injection H as <- <- <-. left. eexists. repeat split. }
  destruct (@written_chunks tmp (chunks resp)
              (write fs tmp (RegularFile "")) "" (write_same _ _ _))
    as (Hcontent & Hother).
  simpl in Hcontent.
  set (fs2 := fold_left (fun f chunk => append f tmp chunk) (chunks resp)
                        (write fs tmp (RegularFile ""))) in *.
  destruct (stream_error resp) as [e | ].
  - unfold TempDownload_exit, unlink. rewrite Hcontent. cbn [fst].
    intros H. injection H as <- <- <-. left. exists e.
    split; [ reflexivity | ]. split; [ reflexivity | ].
    intros q. destruct (String.eqb q tmp) eqn:Hq.
    + apply String.eqb_eq in Hq. subst q. rewrite remove_same. congruence.
    + apply String.eqb_neq in Hq.
      rewrite remove_other, Hother, write_other by exact Hq. reflexivity.
  - unfold TempDownload_exit, replace. rewrite Hcontent.
    assert (Hd : fs2 dest = fs dest).
    { rewrite Hother, write_other by congruence. reflexivity. }
    rewrite Hd.
    assert (Hinstall :
              (write (remove fs2 tmp) dest
                     (RegularFile (String.concat "" (chunks resp))),
               log ++ [Downloaded dest], Succeeded tt)
              = (fs', log', r) ->
              exists resp0,
                Succeeded resp = Succeeded resp0
                /\ r = Succeeded tt
                /\ log' = log ++ [Downloaded dest]
                /\ fs' dest
                   = Some (RegularFile (String.concat "" (chunks resp0)))
                /\ forall q, q <> dest -> fs' q = fs q).
    { intros H. injection H as <- <- <-. exists resp.
      split; [ reflexivity | ]. split; [ reflexivity | ].
      split; [ reflexivity | ]. split; [ apply write_same | ].
      intros q Hq. rewrite write_other by exact Hq.
      destruct (String.eqb q tmp) eqn:Hqt.
      - apply String.eqb_eq in Hqt. subst q. rewrite remove_same.
        congruence.
      - apply String.eqb_neq in Hqt.
        rewrite remove_other, Hother, write_other by exact Hqt.
        reflexivity. }
    destruct (fs dest) as [[ | old] | ]; [ congruence | | ];
      intros H; right; exact (Hinstall H).
Qed.

(** What [download_file] starts from once the destination is out of the
    way. *)
Lemma download_file_cases (network : string -> attempt response)
    (url dest parent tmp : string) (force : bool)
    (fs : filesystem) (log : list note)
    (fs' : filesystem) (log' : list note) (o : outcome (attempt unit)) :
  fs tmp = None ->
  tmp <> dest ->
  download_file network url dest parent tmp force fs log = (fs', log', o) ->
  (fs dest <> None /\ force = false
   /\ o = Returned (Succeeded tt)
   /\ log' = log ++ [Already_exists dest]
   /\ forall q, fs' q = fs q)
  \/ (force = true /\ fs dest = Some Directory
      /\ o = Raised (IsADirectoryError dest)
      /\ log' = log
      /\ forall q, fs' q = fs q)
  \/ ((fs dest = None \/ force = true)
      /\ exists e,
           o = Returned (Failed e)
           /\ last log' (Already_exists dest) = Failed_to_download url dest e
           /\ fs' dest = None
           /\ forall q, q <> dest -> fs' q = fs q)
  \/ ((fs dest = None \/ force = true)
      /\ exists resp,
           network url = Succeeded resp
           /\ o = Returned (Succeeded tt)
           /\ last log' (Already_exists dest) = Downloaded dest
           /\ fs' dest = Some (RegularFile (String.concat "" (chunks resp)))
           /\ forall q, q <> dest -> fs' q = fs q).
Proof.
  intros Hfresh Hne. unfold download_file, path_exists.
  destruct (fs dest) as [n | ] eqn:Hdest; destruct force; cbn [andb negb].
  - (* the destination exists and is forced away *)
    unfold unlink. rewrite Hdest. destruct n as [ | old].
    + intros H. injection H as <- <- <-. right. left. repeat split.
    + destruct (_download network url dest parent tmp (remove fs dest)
                  (log ++ [Removed_existing dest]))
        as [[fs2 log2] r] eqn:Hrun.
      apply _download_cases in Hrun;
        [ | rewrite remove_other by exact Hne; exact Hfresh
          | exact Hne
          | rewrite remove_same; discriminate ].
      destruct Hrun as [(e & -> & -> & Hsame)
                       | (resp & Hnet & -> & -> & Hcontent & Hother)];
        intros H; injection H as <- <- <-; right; right.
      * left. split; [ right; reflexivity | ]. exists e.
        split; [ reflexivity | ].
        split; [ apply last_last | ].
        split; [ rewrite Hsame; apply remove_same | ].
        intros q Hq. rewrite Hsame. apply remove_other. exact Hq.
      * right. split; [ right; reflexivity | ]. exists resp.
        split; [ exact Hnet | ]. split; [ reflexivity | ].
        split; [ apply last_last | ].
        split; [ exact Hcontent | ].
        intros q Hq. rewrite (Hother q Hq). apply remove_other. exact Hq.
  - intros H. injection H as <- <- <-. left.
    repeat split. discriminate.
  - destruct (_download network url dest parent tmp fs log)
      as [[fs2 log2] r] eqn:Hrun.
    apply _download_cases in Hrun;
      [ | exact Hfresh | exact Hne | rewrite Hdest; discriminate ].
    destruct Hrun as [(e & -> & -> & Hsame)
                     | (resp & Hnet & -> & -> & Hcontent & Hother)];
      intros H; injection H as <- <- <-; right; right.
    + left. split; [ left; reflexivity | ]. exists e.
      split; [ reflexivity | ].
      split; [ apply last_last | ].
      split; [ rewrite Hsame; exact Hdest | ].
      intros q _. apply Hsame.
    + right. split; [ left; reflexivity | ]. exists resp.
      split; [ exact Hnet | ]. split; [ reflexivity | ].
      split; [ apply last_last | ].
      split; [ exact Hcontent | exact Hother ].
  - destruct (_download network url dest parent tmp fs log)
      as [[fs2 log2] r] eqn:Hrun.
    apply _download_cases in Hrun;
      [ | exact Hfresh | exact Hne | rewrite Hdest; discriminate ].
    destruct Hrun as [(e & -> & -> & Hsame)
                     | (resp & Hnet & -> & -> & Hcontent & Hother)];
      intros H; injection H as <- <- <-; right; right.
    + left. split; [ left; reflexivity | ]. exists e.
      split; [ reflexivity | ].
      split; [ apply last_last | ].
      split; [ rewrite Hsame; exact Hdest | ].
      intros q _. apply Hsame.
    + right. split; [ left; reflexivity | ]. exists resp.
      split; [ exact Hnet | ]. split; [ reflexivity | ].
      split; [ apply last_last | ].
      split; [ exact Hcontent | exact Hother ].
Qed.

(** X19: a failed download leaves no file.  When [download_file] returns
    a [Failure], there is no file at the destination and no temporary file,
    and every other path is as before; the failure is logged last.  With
    [force] this holds even when a file was there: it is removed before
    the request is made. *)
Theorem failed_download_leaves_no_file
    (network : string -> attempt response)
    (url dest parent tmp : string) (force : bool)
    (fs : filesystem) (log : list note)
    (fs' : filesystem) (log' : list note) (e : error) :
  fs tmp = None ->
  tmp <> dest ->
  download_file network url dest parent tmp force fs log
  = (fs', log', Returned (Failed e)) ->
  fs' dest = None
  /\ fs' tmp = None
  /\ (forall q, q <> dest -> fs' q = fs q)
  /\ last log' (Already_exists dest) = Failed_to_download url dest e.
Proof.
  intros Hfresh Hne Hrun.
  destruct (@download_file_cases _ _ _ _ _ _ _ _ _ _ _ Hfresh Hne Hrun)
    as [(_ & _ & Ho & _) | [(_ & _ & Ho & _)
       | [(_ & e' & Ho & Hlog & Hdest & Hother)
         | (_ & resp & _ & Ho & _)]]];
    try discriminate.
  injection Ho as ->.
  split; [ exact Hdest | ].
  split; [ rewrite Hother by exact Hne; exact Hfresh | ].
  split; assumption.
Qed.

Lemma failed_download_leaves_no_file_witness :
  fst (fst forced_failed_run) "datasets/bbq/Age.jsonl" = None
  /\ fst (fst forced_failed_run) "datasets/bbq/Age.k3x9.part" = None
  /\ (forall q, q <> "datasets/bbq/Age.jsonl" ->
               fst (fst forced_failed_run) q = sample_fs q)
  /\ last (snd (fst forced_failed_run))
          (Already_exists "datasets/bbq/Age.jsonl")
     = Failed_to_download "https://example.org/Age.jsonl"
         "datasets/bbq/Age.jsonl" (RequestException "connection reset").
Proof.
  apply (@failed_download_leaves_no_file
           (fun _ => Succeeded broken_response)
           "https://example.org/Age.jsonl" "datasets/bbq/Age.jsonl"
           "datasets/bbq" "datasets/bbq/Age.k3x9.part" true sample_fs []).
  - reflexivity.
  - discriminate.
  - reflexivity.
Defined.

(** X20: a successful download installs the body.  When [download_file]
    returns success, either the destination existed and nothing was
    requested or changed (no [force]), or the destination now holds
    exactly the concatenation of the chunks of the response, no temporary
    file is left, and every other path is as before. *)
Theorem successful_download_installs_the_body
    (network : string -> attempt response)
    (url dest parent tmp : string) (force : bool)
    (fs : filesystem) (log : list note)
    (fs' : filesystem) (log' : list note) :
  fs tmp = None ->
  tmp <> dest ->
  download_file network url dest parent tmp force fs log
  = (fs', log', Returned (Succeeded tt)) ->
  (fs dest <> None /\ force = false /\ forall q, fs' q = fs q)
  \/ (exists resp,
         network url = Succeeded resp
         /\ fs' dest = Some (RegularFile (String.concat "" (chunks resp)))
         /\ fs' tmp = None
         /\ forall q, q <> dest -> fs' q = fs q).
Proof.
  intros Hfresh Hne Hrun.
  destruct (@download_file_cases _ _ _ _ _ _ _ _ _ _ _ Hfresh Hne Hrun)
    as [(Hdest & Hforce & _ & _ & Hsame) | [(_ & _ & Ho & _)
       | [(_ & e' & Ho & _)
         | (_ & resp & Hnet & _ & _ & Hcontent & Hother)]]];
    try discriminate.
  - left. repeat split; assumption.
  - right. exists resp.
    split; [ exact Hnet | ]. split; [ exact Hcontent | ].
    split; [ rewrite Hother by exact Hne; exact Hfresh | exact Hother ].
Qed.

Lemma successful_download_installs_the_body_witness :
  (sample_fs "datasets/bbq/SES.jsonl" <> None /\ false = false
   /\ forall q, fst (fst new_file_run) q = sample_fs q)
  \/ (exists resp,
         Succeeded sample_response = Succeeded resp
         /\ fst (fst new_file_run) "datasets/bbq/SES.jsonl"
            = Some (RegularFile (String.concat "" (chunks resp)))
         /\ fst (fst new_file_run) "datasets/bbq/SES.k3x9.part" = None
         /\ forall q, q <> "datasets/bbq/SES.jsonl" ->
                      fst (fst new_file_run) q = sample_fs q).
Proof.
  apply (@successful_download_installs_the_body
           (fun _ => Succeeded sample_response)
           "https://example.org/SES.jsonl" "datasets/bbq/SES.jsonl"
           "datasets/bbq" "datasets/bbq/SES.k3x9.part" false sample_fs []
           (fst (fst new_file_run)) (snd (fst new_file_run))).
  - reflexivity.
  - discriminate.
  - reflexivity.
Defined.

(** X21: [download_file] raises in one case only: [force] is set and the
    destination is a directory, which [unlink] refuses; then nothing is
    changed or logged.  Every failure of the request, of the stream or of
    the temporary file is returned as a [Failure] instead. *)
Theorem download_file_raises_only_on_a_directory
    (network : string -> attempt response)
    (url dest parent tmp : string) (force : bool)
    (fs : filesystem) (log : list note) :
  fs tmp = None ->
  tmp <> dest ->
  (forall fs' log' e,
      download_file network url dest parent tmp force fs log
      = (fs', log', Raised e) ->
      force = true /\ fs dest = Some Directory
      /\ e = IsADirectoryError dest /\ log' = log
      /\ forall q, fs' q = fs q)
  /\ (force = true -> fs dest = Some Directory ->
      download_file network url dest parent tmp force fs log
      = (fs, log, Raised (IsADirectoryError dest))).
Proof.
  intros Hfresh Hne. split.
  - intros fs' log' e Hrun.
    destruct (@download_file_cases _ _ _ _ _ _ _ _ _ _ _ Hfresh Hne Hrun)
      as [(_ & _ & Ho & _) | [(Hforce & Hdir & Ho & Hlog & Hsame)
         | [(_ & e' & Ho & _) | (_ & resp & _ & Ho & _)]]];
      try discriminate.
    injection Ho as ->. repeat split; assumption.
  - intros -> Hdir. unfold download_file, path_exists, unlink.
    rewrite Hdir. reflexivity.
Qed.

Lemma download_file_raises_only_on_a_directory_witness :
  download_file (fun _ => Succeeded sample_response)
    "https://example.org/bbq" "datasets/bbq" "datasets"
    "datasets/bbq.k3x9.part" true sample_fs []
  = (sample_fs, [], Raised (IsADirectoryError "datasets/bbq")).
Proof.
  destruct (@download_file_raises_only_on_a_directory
              (fun _ => Succeeded sample_response)
              "https://example.org/bbq" "datasets/bbq" "datasets"
              "datasets/bbq.k3x9.part" true sample_fs [])
    as (_ & Hraise).
  - reflexivity.
  - discriminate.
  - apply Hraise; reflexivity.
Defined.

(** X22: a download is not repeated.  After [download_file] has returned
    success, calling it again for the same destination without [force]
    succeeds without touching any file, whatever the network now answers
    and whatever URL is given. *)
Theorem repeating_a_download_changes_nothing
    (network : string -> attempt response)
    (url dest parent tmp : string) (force : bool)
    (fs : filesystem) (log : list note)
    (fs' : filesystem) (log' : list note) :
  fs tmp = None ->
  tmp <> dest ->
  download_file network url dest parent tmp force fs log
  = (fs', log', Returned (Succeeded tt)) ->
  forall network' url' parent' tmp',
    download_file network' url' dest parent' tmp' false fs' log'
    = (fs', log' ++ [Already_exists dest], Returned (Succeeded tt)).
Proof.
  intros Hfresh Hne Hrun network' url' parent' tmp'.
  assert (Hthere : fs' dest <> None).
  { destruct (@download_file_cases _ _ _ _ _ _ _ _ _ _ _ Hfresh Hne Hrun)
      as [(Hdest & _ & _ & _ & Hsame) | [(_ & _ & Ho & _)
         | [(_ & e' & Ho & _) | (_ & resp & _ & _ & _ & Hcontent & _)]]];
      try discriminate.
    - rewrite Hsame. exact Hdest.
    - rewrite Hcontent. discriminate. }
  unfold download_file, path_exists.
  destruct (fs' dest); [ reflexivity | congruence ].
Qed.

Lemma repeating_a_download_changes_nothing_witness :
  download_file (fun _ => Failed (HTTPError 404))
    "https://example.org/gone" "datasets/bbq/SES.jsonl" "datasets/bbq"
    "datasets/bbq/SES.q7w2.part" false
    (fst (fst new_file_run)) (snd (fst new_file_run))
  = (fst (fst new_file_run),
     snd (fst new_file_run) ++ [Already_exists "datasets/bbq/SES.jsonl"],
     Returned (Succeeded tt)).
Proof.
  apply (@repeating_a_download_changes_nothing
           (fun _ => Succeeded sample_response)
           "https://example.org/SES.jsonl" "datasets/bbq/SES.jsonl"
           "datasets/bbq" "datasets/bbq/SES.k3x9.part" false sample_fs []).
  - reflexivity.
  - discriminate.
  - reflexivity.
Defined.

(** X23: [TempDownload] replaces the destination in one step or not at
    all.  While the block writes, the destination is as before; when the
    block raises, leaving it removes the temporary file and every path is
    as before entering; when the block ends normally, the destination
    holds exactly what was written and the temporary file is gone.  Only
    when the destination is a directory the replacement fails, and the
    temporary file stays. *)
Theorem TempDownload_is_atomic (fs : filesystem)
    (parent tmp dest : string) (received : list string) :
  fs parent = Some Directory ->
  fs tmp = None ->
  tmp <> dest ->
  let written :=
    fold_left (fun f chunk => append f tmp chunk) received
              (fst (TempDownload_enter fs parent tmp)) in
  snd (TempDownload_enter fs parent tmp) = None
  /\ written dest = fs dest
  /\ snd (TempDownload_exit written tmp dest true) = None
  /\ (forall q, fst (TempDownload_exit written tmp dest true) q = fs q)
  /\ (fs dest <> Some Directory ->
      snd (TempDownload_exit written tmp dest false) = None
      /\ fst (TempDownload_exit written tmp dest false) dest
         = Some (RegularFile (String.concat "" received))
      /\ forall q, q <> dest ->
           fst (TempDownload_exit written tmp dest false) q = fs q)
  /\ (fs dest = Some Directory ->
      TempDownload_exit written tmp dest false
      = (written, Some (IsADirectoryError dest))).
Proof.
  intros Hparent Hfresh Hne.
  unfold TempDownload_enter. rewrite Hparent. cbn [fst snd].
  set (written := fold_left (fun f chunk => append f tmp chunk) received
                            (write fs tmp (RegularFile ""))).
  destruct (@written_chunks tmp received
              (write fs tmp (RegularFile "")) "" (write_same _ _ _))
    as (Hcontent & Hother).
  simpl in Hcontent. fold written in Hcontent, Hother.
  assert (Hd : written dest = fs dest).
  { rewrite Hother, write_other by congruence. reflexivity. }
  assert (Hrest : forall q, q <> tmp -> written q = fs q).
  { intros q Hq. rewrite Hother, write_other by exact Hq. reflexivity. }
  split; [ reflexivity | ].
  split; [ exact Hd | ].
  unfold TempDownload_exit, unlink, replace. rewrite Hcontent, Hd.
  split; [ reflexivity | ].
  split.
  { intros q. cbn [fst]. destruct (String.eqb q tmp) eqn:Hq.
    - apply String.eqb_eq in Hq. subst q. rewrite remove_same. congruence.
    - apply String.eqb_neq in Hq. rewrite remove_other by exact Hq.
      apply Hrest. exact Hq. }
  split.
  { intros Hnodir.
    assert (Hgoal :
      snd (write (remove written tmp) dest
                 (RegularFile (String.concat "" received)),
           @None error) = None
      /\ fst (write (remove written tmp) dest
                    (RegularFile (String.concat "" received)),
              @None error) dest
         = Some (RegularFile (String.concat "" received))
      /\ forall q, q <> dest ->
           fst (write (remove written tmp) dest
                      (RegularFile (String.concat "" received)),
                @None error) q = fs q).
    { split; [ reflexivity | ]. cbn [fst].
      split; [ apply write_same | ].
      intros q Hq. rewrite write_other by exact Hq.
      destruct (String.eqb q tmp) eqn:Hqt.
      - apply String.eqb_eq in Hqt. subst q. rewrite remove_same.
        congruence.
      - apply String.eqb_neq in Hqt. rewrite remove_other by exact Hqt.
        apply Hrest. exact Hqt. }
    destruct (fs dest) as [[ | old] | ]; [ congruence | | ]; exact Hgoal. }
  intros Hdir. rewrite Hdir. reflexivity.
Qed.

Lemma TempDownload_is_atomic_witness :
  fst (TempDownload_exit
         (fold_left
            (fun f chunk => append f "datasets/bbq/Age.k3x9.part" chunk)
            ["abc"; "def"]
            (fst (TempDownload_enter sample_fs "datasets/bbq"
                    "datasets/bbq/Age.k3x9.part")))
         "datasets/bbq/Age.k3x9.part" "datasets/bbq/Age.jsonl" false)
      "datasets/bbq/Age.jsonl"
  = Some (RegularFile "abcdef").
Proof.
  destruct (@TempDownload_is_atomic sample_fs "datasets/bbq"
              "datasets/bbq/Age.k3x9.part" "datasets/bbq/Age.jsonl"
              ["abc"; "def"])
    as (_ & _ & _ & _ & Hreplaced & _).
  - reflexivity.
  - reflexivity.
  - discriminate.
  - destruct Hreplaced as (_ & Hcontent & _); [ discriminate | ].
    exact Hcontent.
Defined.

End DownloadFacts.
